(** * The SMS forwarding dispatcher ([SMSForwarderService])

    A shallow embedding of the class [SMSForwarderService] (the second
    module of [src/contexts/DarkModeContext.tsx]) and of the runtime values
    it touches: strings, numbers as produced by [parseInt], parsed JSON
    values, the persistent store [AsyncStorage], the network and the
    registered error listeners.

    Conventions of the embedding.
    - A JavaScript string is the list of its UTF-16 code units.
    - An [async] method is a state transformer that either completes
      normally or throws ([Completion]); a rejected promise is a throw at
      the [await].  One call of a public method runs without another call of
      the dispatcher interleaved at its [await]s; inside [forwardSMS] the
      order in which the two pending sends settle is chosen by the runtime.
    - [console.log] and [console.error] are not recorded.
    - Error listeners are observers: a listener may throw, but it does not
      call back into the dispatcher. *)

From Stdlib Require Import ZArith NArith Lia String Ascii List Bool.
From stdpp Require Import base option list gmap.

Open Scope N_scope.

(** ** Strings *)

Abbreviation str := (list N).

(** An ASCII literal of the source as a list of code units. *)
Definition lit (s : string) : str :=
  map N_of_ascii (list_ascii_of_string s).

Fixpoint str_eqb (a b : str) : bool :=
  match a, b with
  | [], [] => true
  | x :: a', y :: b' => (x =? y) && str_eqb a' b'
  | _, _ => false
  end.

(** The literal between double quotes, as it stands inside a JSON text. *)
Definition quoted (s : string) : str := 34 :: lit s ++ [34].

Definition is_empty (s : str) : bool :=
  match s with [] => true | _ :: _ => false end.

(** The code points that [String.prototype.trim] and [parseInt] skip:
    WhiteSpace (TAB, VT, FF, SP, NBSP, ZWNBSP and the category Zs) and
    LineTerminator (LF, CR, LS, PS). *)
Definition isWhiteSpace (c : N) : bool :=
  (c =? 0x09) || (c =? 0x0A) || (c =? 0x0B) || (c =? 0x0C) || (c =? 0x0D)
  || (c =? 0x20) || (c =? 0xA0) || (c =? 0x1680)
  || ((0x2000 <=? c) && (c <=? 0x200A))
  || (c =? 0x2028) || (c =? 0x2029) || (c =? 0x202F) || (c =? 0x205F)
  || (c =? 0x3000) || (c =? 0xFEFF).

Fixpoint trimStart (s : str) : str :=
  match s with
  | c :: s' => if isWhiteSpace c then trimStart s' else s
  | [] => []
  end.

Definition trimEnd (s : str) : str := rev (trimStart (rev s)).

(** [s.trim()] *)
Definition trim (s : str) : str := trimEnd (trimStart s).

(** ** Numbers

    The only numbers the dispatcher computes with are results of [parseInt],
    that is [NaN] or an integer-valued double.  [Num z] is the double whose
    value is the integer [z]; every integer that [parseInt] or [+] produces
    is rounded to the nearest double ([round_double]).

    The model is exact up to [2^53] in magnitude ([safe_bound]), where every
    integer is a double and [toString] prints all its digits.  Above that it
    is an approximation: [Number_toString] prints every decimal digit of the
    double, where [toString] prints the shortest digits that read back as the
    same double (and an exponent from [10^21] on), and [parseInt] never gives
    [Infinity], which the engine returns for a run of digits beyond the
    range of doubles.  The statements below fix a value only within
    [safe_bound]. *)

Inductive Number :=
| NaN
| Num (z : Z).

Definition safe_bound : Z := 2 ^ 53.

(** The integer nearest to [z] that a double represents (53 bits of
    mantissa, ties to the even mantissa). *)
Definition round_double (z : Z) : Z :=
  let a := Z.abs z in
  if (a <? safe_bound)%Z then z
  else
    let e := (Z.log2 a - 52)%Z in
    let q := (a / 2 ^ e)%Z in
    let r := (a mod 2 ^ e)%Z in
    let half := (2 ^ (e - 1))%Z in
    let q' := if (half <? r)%Z || ((r =? half)%Z && Z.odd q) then (q + 1)%Z else q in
    (Z.sgn z * (q' * 2 ^ e))%Z.

(** Value of a code unit as a digit of the given radix. *)
Definition digit_value (radix c : N) : option N :=
  let d :=
    if (48 <=? c) && (c <=? 57) then c - 48
    else if (97 <=? c) && (c <=? 122) then c - 87
    else if (65 <=? c) && (c <=? 90) then c - 55
    else radix in
  if d <? radix then Some d else None.

(** Value of the longest prefix of radix digits, continuing from [acc]. *)
Fixpoint scan_digits (radix : N) (s : str) (acc : N) : N :=
  match s with
  | c :: s' =>
      match digit_value radix c with
      | Some d => scan_digits radix s' (radix * acc + d)
      | None => acc
      end
  | [] => acc
  end.

Definition starts_with_digit (radix : N) (s : str) : bool :=
  match s with
  | c :: _ => match digit_value radix c with Some _ => true | None => false end
  | [] => false
  end.

Definition is_decimal_digit (c : N) : bool := (48 <=? c) && (c <=? 57).

(** [parseInt(s)] without a radix argument: leading white space, an optional
    sign, an optional [0x]/[0X] prefix selecting radix 16, then the longest
    run of digits; [NaN] when there is no digit. *)
Definition parseInt (s : str) : Number :=
  let s1 := trimStart s in
  let '(negative, s2) :=
    match s1 with
    | c :: r => if c =? 45 then (true, r) else if c =? 43 then (false, r) else (false, s1)
    | [] => (false, s1)
    end in
  let '(radix, s3) :=
    match s2 with
    | c0 :: c1 :: r =>
        if (c0 =? 48) && ((c1 =? 120) || (c1 =? 88)) then (16, r) else (10, s2)
    | _ => (10, s2)
    end in
  if starts_with_digit radix s3
  then let n := Z.of_N (scan_digits radix s3 0) in
       Num (round_double (if negative then - n else n))%Z
  else NaN.

(** [x + 1] *)
Definition add1 (x : Number) : Number :=
  match x with
  | NaN => NaN
  | Num z => Num (round_double (z + 1))
  end.

(** Decimal digits of [n], most significant first, in front of [acc]. *)
Fixpoint to_digits (fuel : nat) (n : N) (acc : str) : str :=
  let acc' := (48 + n mod 10) :: acc in
  match fuel with
  | O => acc'
  | S fuel' => if n <? 10 then acc' else to_digits fuel' (n / 10) acc'
  end.

Definition N_toString (n : N) : str :=
  to_digits (N.to_nat (N.log2 n)) n [].

(** [x.toString()] *)
Definition Number_toString (x : Number) : str :=
  match x with
  | NaN => lit "NaN"
  | Num z => if (z <? 0)%Z then 45 :: N_toString (Z.abs_N z) else N_toString (Z.abs_N z)
  end.

(** ** Thrown values and completions *)

(** What a [catch] clause receives: an [Error] instance with its message, or
    any other value, kept as its [String(...)] rendering. *)
Inductive Exn :=
| Error (message : str)
| Thrown (rendering : str).

(** [error instanceof Error ? error.message : String(error)] *)
Definition errorMessage (error : Exn) : str :=
  match error with
  | Error message => message
  | Thrown rendering => rendering
  end.

Inductive Completion (A : Type) :=
| Normal (a : A)
| Throw (e : Exn).
Arguments Normal {A} a.
Arguments Throw {A} e.

#[global] Instance Completion_ret : MRet Completion := fun A a => Normal a.

#[global] Instance Completion_bind : MBind Completion := fun A B f c =>
  match c with
  | Normal a => f a
  | Throw e => Throw e
  end.

(** ** Parsed JSON values

    A number is carried as its [Number.prototype.toString] rendering, the
    only thing besides truthiness that the dispatcher observes of it ([0]
    and [-0] both render as ["0"]).  An object is the list of its own
    properties; [undefined] is [None] of [option JSON]. *)

#[warnings="-register-all"]
Inductive JSON :=
| JNull
| JBool (b : bool)
| JNum (repr : str)
| JStr (s : str)
| JArr (items : list JSON)
| JObj (props : list (str * JSON)).

Fixpoint lookup_prop (props : list (str * JSON)) (key : str) : option JSON :=
  match props with
  | (k, v) :: props' => if str_eqb k key then Some v else lookup_prop props' key
  | [] => None
  end.

(** [Boolean(v)], also the test of [v || d] and [v && d]. *)
Definition ToBoolean (v : option JSON) : bool :=
  match v with
  | None | Some JNull => false
  | Some (JBool b) => b
  | Some (JNum repr) => negb (str_eqb repr (lit "0"))
  | Some (JStr s) => negb (is_empty s)
  | Some (JArr _) | Some (JObj _) => true
  end.

(** [String(v)] and [`${v}`]; [None] when the conversion throws a TypeError
    (an object whose own [toString] property hides the inherited method). *)
Fixpoint ToString (v : JSON) : option str :=
  match v with
  | JNull => Some (lit "null")
  | JBool b => Some (if b then lit "true" else lit "false")
  | JNum repr => Some repr
  | JStr s => Some s
  | JArr items =>
      (fix join (l : list JSON) : option str :=
         match l with
         | [] => Some []
         | x :: l' =>
             match match x with JNull => Some [] | _ => ToString x end, join l' with
             | Some a, Some b =>
                 Some (a ++ match l' with [] => b | _ :: _ => 44 :: b end)
             | _, _ => None
             end
         end) items
  | JObj props =>
      match lookup_prop props (lit "toString") with
      | Some _ => None
      | None => Some (lit "[object Object]")
      end
  end.

(** ** The data of the dispatcher *)

Record SMSMessage := {
  body : str;
  address : str;
  date : str;
  dateSent : str;
}.

Record ConfigData := {
  restApiEnabled : bool;
  restApiUrl : str;
  restApiHeaders : str;
  telegramEnabled : bool;
  telegramBotToken : str;
  telegramChatId : str;
}.

(** The union ['telegram' | 'restapi' | 'general']. *)
Inductive ErrorType := telegram | restapi | general.

(** The string an [ErrorType] is at run time. *)
Definition ErrorType_tag (t : ErrorType) : str :=
  match t with
  | telegram => lit "telegram"
  | restapi => lit "restapi"
  | general => lit "general"
  end.

Record ErrorEvent := {
  type : ErrorType;
  message : str;
  timestamp : str;
}.

(** A listener function: its identity (listeners are compared with [!==])
    and how a call of it completes. *)
Record ErrorListener := {
  listener_ref : nat;
  listener_call : ErrorEvent -> Completion unit;
}.

(** ** The network *)

(** A call of [fetch]: the URL and the [method], [headers] and [body] of its
    options; the body is kept as the value handed to [JSON.stringify]. *)
Record Request := {
  req_url : str;
  req_method : str;
  req_headers : JSON;
  req_body : JSON;
}.

Record Response := {
  status : N;
  text : str;
}.

(** [response.ok] *)
Definition ok (response : Response) : bool :=
  (200 <=? status response) && (status response <=? 299).

(** ** The runtime

    What the platform decides: the JSON parser, the outcome of each request,
    the clock, the locale rendering of a date, the texts of the engine's
    TypeErrors, and which of two pending sends settles first. *)
Record Runtime := {
  JSON_parse : str -> Completion JSON;
  fetch : Request -> Completion Response;
  Date_toISOString : nat -> str;
  Date_toLocaleString : Number -> str;
  TypeError_null_property : str -> str;
  TypeError_to_primitive : str;
  telegram_settles_first : bool;
}.

(** ** The state

    The fields of the singleton, the persistent store with the outcome of
    its next operations ([Some e]: the operation rejects with [e]), the
    number of clock readings so far, and what was observed from outside. *)

Inductive Effect :=
| NetworkCall (request : Request)
| Delivered (listener : nat) (event : ErrorEvent).

Record State := {
  isRunning : bool;
  config : option ConfigData;
  errorListeners : list ErrorListener;
  storage : gmap str str;
  faults : list (option Exn);
  clock : nat;
  trace : list Effect;
}.

Definition set_isRunning (b : bool) (st : State) : State :=
  {| isRunning := b; config := config st; errorListeners := errorListeners st;
     storage := storage st; faults := faults st; clock := clock st;
     trace := trace st |}.

Definition set_config (c : option ConfigData) (st : State) : State :=
  {| isRunning := isRunning st; config := c; errorListeners := errorListeners st;
     storage := storage st; faults := faults st; clock := clock st;
     trace := trace st |}.

Definition set_errorListeners (ls : list ErrorListener) (st : State) : State :=
  {| isRunning := isRunning st; config := config st; errorListeners := ls;
     storage := storage st; faults := faults st; clock := clock st;
     trace := trace st |}.

Definition set_storage (m : gmap str str) (st : State) : State :=
  {| isRunning := isRunning st; config := config st;
     errorListeners := errorListeners st;
     storage := m; faults := faults st; clock := clock st; trace := trace st |}.

Definition set_faults (fs : list (option Exn)) (st : State) : State :=
  {| isRunning := isRunning st; config := config st;
     errorListeners := errorListeners st;
     storage := storage st; faults := fs; clock := clock st; trace := trace st |}.

Definition tick (st : State) : State :=
  {| isRunning := isRunning st; config := config st;
     errorListeners := errorListeners st;
     storage := storage st; faults := faults st; clock := S (clock st);
     trace := trace st |}.

Definition record_effect (e : Effect) (st : State) : State :=
  {| isRunning := isRunning st; config := config st;
     errorListeners := errorListeners st;
     storage := storage st; faults := faults st; clock := clock st;
     trace := trace st ++ [e] |}.

(** ** Asynchronous methods as state transformers *)

Definition M (A : Type) : Type := State -> Completion A * State.

#[global] Instance M_ret : MRet M := fun A a st => (Normal a, st).

#[global] Instance M_bind : MBind M := fun A B f m st =>
  match m st with
  | (Normal a, st') => f a st'
  | (Throw e, st') => (Throw e, st')
  end.

Definition throw {A} (e : Exn) : M A := fun st => (Throw e, st).

(** [try { m } catch (error) { handler error }] *)
Definition try_catch {A} (m : M A) (handler : Exn -> M A) : M A := fun st =>
  match m st with
  | (Normal a, st') => (Normal a, st')
  | (Throw e, st') => handler e st'
  end.

Definition liftC {A} (c : Completion A) : M A := fun st => (c, st).

Definition gets {A} (f : State -> A) : M A := fun st => (Normal (f st), st).

Definition modify (f : State -> State) : M unit := fun st => (Normal tt, f st).

(** [l.forEach(f)] *)
Fixpoint forEach {A} (f : A -> M unit) (l : list A) : M unit :=
  match l with
  | [] => mret tt
  | x :: l' => f x;; forEach f l'
  end.

(** ** The persistent store *)

Definition next_fault : M (option Exn) := fun st =>
  (Normal (match faults st with f :: _ => f | [] => None end),
   set_faults (tl (faults st)) st).

(** [await AsyncStorage.getItem(key)]: the stored string or [null]. *)
Definition AsyncStorage_getItem (key : str) : M (option str) :=
  fault ← next_fault;
  match fault with
  | Some e => throw e
  | None => gets (fun st => storage st !! key)
  end.

(** [await AsyncStorage.setItem(key, value)] *)
Definition AsyncStorage_setItem (key value : str) : M unit :=
  fault ← next_fault;
  match fault with
  | Some e => throw e
  | None => modify (fun st => set_storage (<[key := value]> (storage st)) st)
  end.

(** [s || d] on a string or [null] *)
Definition or_default (s : option str) (d : str) : str :=
  match s with
  | Some (c :: r) => c :: r
  | Some [] | None => d
  end.

(** ** The class [SMSForwarderService] *)

Section SMSForwarderService.

Variable rt : Runtime.

(** [new Date().toISOString()] *)
Definition new_Date_toISOString : M str := fun st =>
  (Normal (Date_toISOString rt (clock st)), tick st).

(** [v.key] for a property name that no prototype defines (all the names
    read below are such). *)
Definition Get (v : JSON) (key : str) : Completion (option JSON) :=
  match v with
  | JNull => Throw (Error (TypeError_null_property rt key))
  | JObj props => Normal (lookup_prop props key)
  | JBool _ | JNum _ | JStr _ | JArr _ => Normal None
  end.

(** [String(v || d)] and [`${v || d}`] for a string [d] *)
Definition String_or (v : option JSON) (d : str) : Completion str :=
  if ToBoolean v then
    match v ≫= ToString with
    | Some s => Normal s
    | None => Throw (Error (TypeError_to_primitive rt))
    end
  else Normal d.

(** The initial value of the instance fields, with no listener. *)
Definition getInstance (store : gmap str str) : State :=
  {| isRunning := false; config := None; errorListeners := [];
     storage := store; faults := []; clock := 0; trace := [] |}.

Definition isServiceRunning (this : State) : bool := isRunning this.

Definition addErrorListener (listener : ErrorListener) : M unit :=
  modify (fun this =>
    set_errorListeners (errorListeners this ++ [listener]) this).

Definition removeErrorListener (listener : ErrorListener) : M unit :=
  modify (fun this =>
    set_errorListeners
      (List.filter (fun l => negb (listener_ref l =? listener_ref listener)%nat)
                   (errorListeners this))
      this).

(** One turn of the [forEach] in [emitError]: the call is observed, and
    whatever it throws is caught. *)
Definition call_listener (errorEvent : ErrorEvent) (listener : ErrorListener)
  : M unit :=
  try_catch
    (modify (record_effect (Delivered (listener_ref listener) errorEvent));;
     liftC (listener_call listener errorEvent))
    (fun _ => mret tt).

Definition emitError (type : ErrorType) (message : str) : M unit :=
  timestamp ← new_Date_toISOString;
  let errorEvent :=
    {| type := type; message := message; timestamp := timestamp |} in
  listeners ← gets errorListeners;
  forEach (call_listener errorEvent) listeners.

(** The text [{"Content-Type": "application/json"}]. *)
Definition default_headers : str :=
  lit "{" ++ quoted "Content-Type" ++ lit ": " ++ quoted "application/json"
  ++ lit "}".

(** The object literal that [loadConfig] builds from a stored text. *)
Definition parse_config (savedConfig : str) : Completion ConfigData :=
  parsedConfig ← JSON_parse rt savedConfig;
  v1 ← Get parsedConfig (lit "restApiEnabled");
  v2 ← Get parsedConfig (lit "restApiUrl");
  s2 ← String_or v2 [];
  v3 ← Get parsedConfig (lit "restApiHeaders");
  s3 ← String_or v3 default_headers;
  v4 ← Get parsedConfig (lit "telegramEnabled");
  v5 ← Get parsedConfig (lit "telegramBotToken");
  s5 ← String_or v5 [];
  v6 ← Get parsedConfig (lit "telegramChatId");
  s6 ← String_or v6 [];
  mret {| restApiEnabled := ToBoolean v1;
          restApiUrl := s2;
          restApiHeaders := s3;
          telegramEnabled := ToBoolean v4;
          telegramBotToken := s5;
          telegramChatId := s6 |}.

(** The object literal that [loadConfig] uses when nothing is stored. *)
Definition default_config : ConfigData :=
  {| restApiEnabled := false;
     restApiUrl := [];
     restApiHeaders := default_headers;
     telegramEnabled := false;
     telegramBotToken := [];
     telegramChatId := [] |}.

Definition loadConfig : M unit :=
  try_catch
    (savedConfig ← AsyncStorage_getItem (lit "smsForwarderConfig");
     match savedConfig with
     | Some (c :: r) =>
         loaded ← liftC (parse_config (c :: r));
         modify (set_config (Some loaded))
     | Some [] | None =>
         modify (set_config (Some default_config))
     end)
    (fun error => throw error).

Definition restApiValid (c : ConfigData) : bool :=
  restApiEnabled c
  && negb (is_empty (restApiUrl c))
  && negb (is_empty (trim (restApiUrl c))).

Definition telegramValid (c : ConfigData) : bool :=
  telegramEnabled c
  && negb (is_empty (telegramBotToken c))
  && negb (is_empty (trim (telegramBotToken c)))
  && negb (is_empty (telegramChatId c))
  && negb (is_empty (trim (telegramChatId c))).

Definition isConfigurationValidSync (this : State) : bool :=
  match config this with
  | None => false
  | Some c => restApiValid c || telegramValid c
  end.

Definition isConfigurationValid : M bool :=
  try_catch
    (loadConfig;; gets isConfigurationValidSync)
    (fun _ => mret false).

Definition start : M unit :=
  try_catch
    (loadConfig;;
     valid ← gets isConfigurationValidSync;
     if negb valid then mret tt
     else
       modify (set_isRunning true);;
       AsyncStorage_setItem (lit "smsForwarderRunning") (lit "true"))
    (fun error => throw error).

Definition stop : M unit :=
  modify (set_isRunning false);;
  AsyncStorage_setItem (lit "smsForwarderRunning") (lit "false").

Definition incrementSMSCount : M unit :=
  try_catch
    (currentCount ← AsyncStorage_getItem (lit "smsForwardedCount");
     let newCount :=
       Number_toString (add1 (parseInt (or_default currentCount (lit "0")))) in
     AsyncStorage_setItem (lit "smsForwardedCount") newCount)
    (fun _ => mret tt).

Definition getSMSCount : M Number :=
  try_catch
    (count ← AsyncStorage_getItem (lit "smsForwardedCount");
     mret (parseInt (or_default count (lit "0"))))
    (fun _ => mret (Num 0)).

(** *** The REST send

    [forwardToRestAPI] runs up to its [await fetch(...)] when it is called
    ([forwardToRestAPI_begin], which yields the pending request unless the
    method already finished) and continues when the request settles
    ([forwardToRestAPI_resume]). *)

Definition rest_catch (error : Exn) : M unit :=
  emitError restapi (lit "Error forwarding to REST API: " ++ errorMessage error).

Definition rest_request (c : ConfigData) (sms : SMSMessage)
    (headers : JSON) (receivedAt : str) : Request :=
  {| req_url := restApiUrl c;
     req_method := lit "POST";
     req_headers := headers;
     req_body :=
       JObj [ (lit "message", JStr (body sms));
              (lit "sender", JStr (address sms));
              (lit "timestamp", JStr (date sms));
              (lit "dateSent", JStr (dateSent sms));
              (lit "receivedAt", JStr receivedAt) ] |}.

(** The rest of the [try] block once [fetch] has settled. *)
Definition rest_settle (request : Request) : Completion unit :=
  response ← fetch rt request;
  if negb (ok response)
  then Throw (Error (lit "REST API request failed: "
                     ++ N_toString (status response)))
  else Normal tt.

Definition forwardToRestAPI_begin (sms : SMSMessage) : M (option Request) :=
  this_config ← gets config;
  match this_config with
  | None => mret None
  | Some c =>
      try_catch
        (headers ← liftC (JSON_parse rt (restApiHeaders c));
         receivedAt ← new_Date_toISOString;
         let request := rest_request c sms headers receivedAt in
         modify (record_effect (NetworkCall request));;
         mret (Some request))
        (fun error => rest_catch error;; mret None)
  end.

Definition forwardToRestAPI_resume (request : Request) : M unit :=
  try_catch (liftC (rest_settle request)) rest_catch.

Definition forwardToRestAPI (sms : SMSMessage) : M unit :=
  pending ← forwardToRestAPI_begin sms;
  match pending with
  | Some request => forwardToRestAPI_resume request
  | None => mret tt
  end.

(** *** The Telegram send, split at its [await fetch(...)] likewise *)

Definition telegram_catch (error : Exn) : M unit :=
  emitError telegram (lit "Error forwarding to Telegram: " ++ errorMessage error).

(** The template literal of [forwardToTelegram]; each pictograph is a
    surrogate pair. *)
Definition telegram_text (sms : SMSMessage) : str :=
  [0xD83D; 0xDCF1] ++ lit " *New SMS Received*" ++ [10; 10]
  ++ [0xD83D; 0xDCDE] ++ lit " *From:* " ++ address sms ++ [10]
  ++ [0xD83D; 0xDCC5] ++ lit " *Date:* "
  ++ Date_toLocaleString rt (parseInt (date sms)) ++ [10]
  ++ [0xD83D; 0xDCAC] ++ lit " *Message:*" ++ [10] ++ body sms.

Definition telegram_request (c : ConfigData) (sms : SMSMessage) : Request :=
  {| req_url := lit "https://api.telegram.org/bot" ++ telegramBotToken c
                ++ lit "/sendMessage";
     req_method := lit "POST";
     req_headers := JObj [ (lit "Content-Type", JStr (lit "application/json")) ];
     req_body :=
       JObj [ (lit "chat_id", JStr (telegramChatId c));
              (lit "text", JStr (telegram_text sms));
              (lit "parse_mode", JStr (lit "Markdown")) ] |}.

(** The rest of the [try] block once [fetch] has settled. *)
Definition telegram_settle (request : Request) : Completion unit :=
  response ← fetch rt request;
  if negb (ok response)
  then
    errorData ← JSON_parse rt (text response);
    description ← Get errorData (lit "description");
    detail ← String_or description (N_toString (status response));
    Throw (Error (lit "Telegram API request failed: " ++ detail))
  else Normal tt.

Definition forwardToTelegram_begin (sms : SMSMessage) : M (option Request) :=
  this_config ← gets config;
  match this_config with
  | None => mret None
  | Some c =>
      try_catch
        (let request := telegram_request c sms in
         modify (record_effect (NetworkCall request));;
         mret (Some request))
        (fun error => telegram_catch error;; mret None)
  end.

Definition forwardToTelegram_resume (request : Request) : M unit :=
  try_catch (liftC (telegram_settle request)) telegram_catch.


(** *** The dispatch *)

(** A promise handed to [Promise.allSettled]: its rejection is absorbed. *)
Definition settled {A} (m : M A) (otherwise : A) : M A :=
  try_catch m (fun _ => mret otherwise).

Definition resume_with (resume : Request -> M unit) (pending : option Request)
  : M unit :=
  match pending with
  | Some request => settled (resume request) tt
  | None => mret tt
  end.

(** The two guards in front of [promises.push(...)]. *)
Definition rest_dispatch (c : ConfigData) : bool :=
  restApiEnabled c && negb (is_empty (restApiUrl c)).

Definition telegram_dispatch (c : ConfigData) : bool :=
  telegramEnabled c && negb (is_empty (telegramBotToken c)).

Definition forwardSMS (sms : SMSMessage) : M unit := fun this =>
  match isRunning this, config this with
  | true, Some c =>
      try_catch
        (rest ←
           (if rest_dispatch c
            then settled (forwardToRestAPI_begin sms) None
            else mret None);
         tele ←
           (if telegram_dispatch c
            then settled (forwardToTelegram_begin sms) None
            else mret None);
         (if telegram_settles_first rt
          then resume_with forwardToTelegram_resume tele;;
               resume_with forwardToRestAPI_resume rest
          else resume_with forwardToRestAPI_resume rest;;
               resume_with forwardToTelegram_resume tele);;
         incrementSMSCount)
        (fun _ => mret tt)
        this
  | _, _ => (Normal tt, this)
  end.

End SMSForwarderService.

(** ** What is observed of a run *)

Definition network_calls (tr : list Effect) : list Request :=
  omap (fun e => match e with NetworkCall r => Some r | Delivered _ _ => None end) tr.

Definition delivery_log (tr : list Effect) : list (nat * ErrorEvent) :=
  omap (fun e => match e with Delivered l ev => Some (l, ev) | NetworkCall _ => None end) tr.

(** The calls by which one event reaches the registered listeners. *)
Definition deliveries (ev : ErrorEvent) (ls : list ErrorListener) : list Effect :=
  map (fun l => Delivered (listener_ref l) ev) ls.

(** What a run from [st] to [st'] added to the trace. *)
Definition new_effects (st st' : State) : list Effect :=
  drop (length (trace st)) (trace st').

Definition add_effects (es : list Effect) (st : State) : State :=
  {| isRunning := isRunning st; config := config st;
     errorListeners := errorListeners st;
     storage := storage st; faults := faults st; clock := clock st;
     trace := trace st ++ es |}.

(** The state after [emitError type message] in [st]. *)
Definition emitted (rt : Runtime) (type : ErrorType) (message : str) (st : State)
  : State :=
  add_effects
    (deliveries {| type := type; message := message;
                   timestamp := Date_toISOString rt (clock st) |}
                (errorListeners st))
    (tick st).

(** The persisted counter as [getSMSCount] reads it. *)
Definition stored_count (st : State) : Number :=
  parseInt (or_default (storage st !! lit "smsForwardedCount") (lit "0")).

(** The next [k] operations on the store succeed. *)
Definition storage_works (k : nat) (st : State) : bool :=
  forallb (fun f => match f with None => true | Some _ => false end)
          (take k (faults st)).

(** The validity invariant of the specification: a destination is active
    when it is enabled and its required fields are non-empty once trimmed. *)
Definition rest_active (c : ConfigData) : Prop :=
  restApiEnabled c = true /\ trim (restApiUrl c) <> [].

Definition telegram_active (c : ConfigData) : Prop :=
  telegramEnabled c = true
  /\ trim (telegramBotToken c) <> [] /\ trim (telegramChatId c) <> [].

(** ** The sends as functions of the state

    What the two phases of a send do to the state, written out; the lemmas
    of the next part show that the methods compute exactly these. *)

(** One event reaching each registered listener, as the log shows it. *)
Definition fan_out (ev : ErrorEvent) (ls : list ErrorListener)
  : list (nat * ErrorEvent) :=
  map (fun l => (listener_ref l, ev)) ls.

Definition failed {A} (c : Completion A) : bool :=
  match c with
  | Normal _ => false
  | Throw _ => true
  end.

(** The REST send called in [st] ends in its [catch] clause: the headers do
    not parse, the request is rejected, or the status is not 2xx. *)
Definition rest_send_fails (rt : Runtime) (c : ConfigData) (sms : SMSMessage)
    (st : State) : bool :=
  match JSON_parse rt (restApiHeaders c) with
  | Throw _ => true
  | Normal headers =>
      failed (rest_settle rt
                (rest_request c sms headers (Date_toISOString rt (clock st))))
  end.

(** The Telegram send ends in its [catch] clause. *)
Definition telegram_send_fails (rt : Runtime) (c : ConfigData) (sms : SMSMessage)
  : bool :=
  failed (telegram_settle rt (telegram_request rt c sms)).

(** The deliveries of a trace without the timestamps: which listener was
    called with an event of which type and message. *)
Definition delivery_summary (tr : list Effect) : list (nat * ErrorType * str) :=
  map (fun d => (fst d, type (snd d), message (snd d))) (delivery_log tr).

(** One report reaching each registered listener. *)
Definition notified (ls : list ErrorListener) (report : ErrorType * str)
  : list (nat * ErrorType * str) :=
  map (fun l => (listener_ref l, fst report, snd report)) ls.

(** The requests that [forwardSMS] issues in [st], in order. *)
Definition requested (rt : Runtime) (sms : SMSMessage) (c : ConfigData)
    (st : State) : list Request :=
  (if rest_dispatch c
   then match JSON_parse rt (restApiHeaders c) with
        | Normal headers =>
            [rest_request c sms headers (Date_toISOString rt (clock st))]
        | Throw _ => []
        end
   else [])
  ++ (if telegram_dispatch c then [telegram_request rt c sms] else []).

(** What the [catch] clause of the REST send reports, if the send is started
    and fails. *)
Definition rest_report (rt : Runtime) (sms : SMSMessage) (c : ConfigData)
    (st : State) : list (ErrorType * str) :=
  if rest_dispatch c
  then match JSON_parse rt (restApiHeaders c) with
       | Normal headers =>
           match rest_settle rt (rest_request c sms headers
                                   (Date_toISOString rt (clock st))) with
           | Normal _ => []
           | Throw e => [(restapi, lit "Error forwarding to REST API: "
                                   ++ errorMessage e)]
           end
       | Throw e => [(restapi, lit "Error forwarding to REST API: "
                               ++ errorMessage e)]
       end
  else [].

Definition telegram_report (rt : Runtime) (sms : SMSMessage) (c : ConfigData)
  : list (ErrorType * str) :=
  if telegram_dispatch c
  then match telegram_settle rt (telegram_request rt c sms) with
       | Normal _ => []
       | Throw e => [(telegram, lit "Error forwarding to Telegram: "
                                ++ errorMessage e)]
       end
  else [].

(** The error reports of [forwardSMS] in [st], in the order of emission: a
    failure to parse the headers is reported before anything is awaited,
    the other failures in the order in which the requests settle. *)
Definition reported (rt : Runtime) (sms : SMSMessage) (c : ConfigData)
    (st : State) : list (ErrorType * str) :=
  if failed (JSON_parse rt (restApiHeaders c)) || negb (telegram_settles_first rt)
  then rest_report rt sms c st ++ telegram_report rt sms c
  else telegram_report rt sms c ++ rest_report rt sms c st.

(** [st'] differs from [st] at most in the clock and the trace. *)
Definition same_frame (st st' : State) : Prop :=
  isRunning st' = isRunning st /\ config st' = config st
  /\ errorListeners st' = errorListeners st /\ storage st' = storage st
  /\ faults st' = faults st.

(** The state after the [catch] clause of a send, if the [try] block threw. *)
Definition after_settle (rt : Runtime) (type : ErrorType) (prefix : str)
    (outcome : Completion unit) (st : State) : State :=
  match outcome with
  | Normal _ => st
  | Throw e => emitted rt type (prefix ++ errorMessage e) st
  end.

Definition begin_rest (rt : Runtime) (sms : SMSMessage) (c : ConfigData)
    (st : State) : option Request * State :=
  match JSON_parse rt (restApiHeaders c) with
  | Normal headers =>
      let request :=
        rest_request c sms headers (Date_toISOString rt (clock st)) in
      (Some request, record_effect (NetworkCall request) (tick st))
  | Throw e =>
      (None, emitted rt restapi
               (lit "Error forwarding to REST API: " ++ errorMessage e) st)
  end.

Definition resume_rest (rt : Runtime) (pending : option Request) (st : State)
  : State :=
  match pending with
  | Some request =>
      after_settle rt restapi (lit "Error forwarding to REST API: ")
                   (rest_settle rt request) st
  | None => st
  end.

Definition resume_telegram (rt : Runtime) (pending : option Request) (st : State)
  : State :=
  match pending with
  | Some request =>
      after_settle rt telegram (lit "Error forwarding to Telegram: ")
                   (telegram_settle rt request) st
  | None => st
  end.

(** The state when [Promise.allSettled] resolves. *)
Definition after_sends (rt : Runtime) (sms : SMSMessage) (c : ConfigData)
    (st : State) : State :=
  let '(rest, st1) :=
    if rest_dispatch c then begin_rest rt sms c st else (None, st) in
  let '(tele, st2) :=
    if telegram_dispatch c
    then (Some (telegram_request rt c sms),
          record_effect (NetworkCall (telegram_request rt c sms)) st1)
    else (None, st1) in
  if telegram_settles_first rt
  then resume_rest rt rest (resume_telegram rt tele st2)
  else resume_telegram rt tele (resume_rest rt rest st2).

(** ** A runtime and states for the examples

    The parser of this runtime knows the texts that the examples use and
    parses them as [JSON.parse] does; like [JSON.parse] it rejects
    ["{invalid json"] and ["{bad"].  Its clock counts seconds; its locale is
    [en-US] in the time zone UTC. *)

(** [{"restApiEnabled":true,"restApiUrl":"https://example.test/sms","telegramEnabled":false}] *)
Definition sample_config_text : str :=
  lit "{" ++ quoted "restApiEnabled" ++ lit ":true,"
  ++ quoted "restApiUrl" ++ lit ":" ++ quoted "https://example.test/sms" ++ lit ","
  ++ quoted "telegramEnabled" ++ lit ":false}".

(** [{"ok":false,"error_code":400,"description":"Bad Request: chat not found"}] *)
Definition sample_rejection_text : str :=
  lit "{" ++ quoted "ok" ++ lit ":false," ++ quoted "error_code" ++ lit ":400,"
  ++ quoted "description" ++ lit ":" ++ quoted "Bad Request: chat not found"
  ++ lit "}".

(** [{"restApiEnabled":true,"restApiUrl":" ","telegramEnabled":true,"telegramBotToken":"123:abc"}] *)
Definition blank_config_text : str :=
  lit "{" ++ quoted "restApiEnabled" ++ lit ":true,"
  ++ quoted "restApiUrl" ++ lit ":" ++ quoted " " ++ lit ","
  ++ quoted "telegramEnabled" ++ lit ":true,"
  ++ quoted "telegramBotToken" ++ lit ":" ++ quoted "123:abc" ++ lit "}".

Definition sample_parse (s : str) : Completion JSON :=
  if str_eqb s default_headers then
    Normal (JObj [ (lit "Content-Type", JStr (lit "application/json")) ])
  else if str_eqb s (lit "[]") then
    Normal (JArr [])
  else if str_eqb s sample_config_text then
    Normal (JObj [ (lit "restApiEnabled", JBool true);
                   (lit "restApiUrl", JStr (lit "https://example.test/sms"));
                   (lit "telegramEnabled", JBool false) ])
  else if str_eqb s blank_config_text then
    Normal (JObj [ (lit "restApiEnabled", JBool true);
                   (lit "restApiUrl", JStr (lit " "));
                   (lit "telegramEnabled", JBool true);
                   (lit "telegramBotToken", JStr (lit "123:abc")) ])
  else if str_eqb s sample_rejection_text then
    Normal (JObj [ (lit "ok", JBool false);
                   (lit "error_code", JNum (lit "400"));
                   (lit "description", JStr (lit "Bad Request: chat not found")) ])
  else Throw (Error (lit "JSON Parse error: Unexpected token")).

(** The server of the examples: [/sms] answers 200, [/down] answers 500,
    the bot [123:abc] is refused with status 400, the bot [200:abc] answers
    200 with the same refusal as body, and nothing else is reachable. *)
Definition sample_fetch (r : Request) : Completion Response :=
  if str_eqb (req_url r) (lit "https://example.test/sms") then
    Normal {| status := 200; text := lit "OK" |}
  else if str_eqb (req_url r) (lit "https://example.test/down") then
    Normal {| status := 500; text := lit "Internal Server Error" |}
  else if str_eqb (req_url r) (lit "https://api.telegram.org/bot123:abc/sendMessage") then
    Normal {| status := 400; text := sample_rejection_text |}
  else if str_eqb (req_url r) (lit "https://api.telegram.org/bot200:abc/sendMessage") then
    Normal {| status := 200; text := sample_rejection_text |}
  else Throw (Error (lit "Network request failed")).

(** The civil date (year, month, day) of a day counted from 1 January 1970,
    in the Gregorian calendar. *)
Definition civil_from_days (days : Z) : Z * Z * Z :=
  let z := (days + 719468)%Z in
  let era := (z / 146097)%Z in
  let doe := (z - era * 146097)%Z in
  let yoe := ((doe - doe / 1460 + doe / 36524 - doe / 146096) / 365)%Z in
  let doy := (doe - (365 * yoe + yoe / 4 - yoe / 100))%Z in
  let mp := ((5 * doy + 2) / 153)%Z in
  let d := (doy - (153 * mp + 2) / 5 + 1)%Z in
  let m := (if mp <? 10 then mp + 3 else mp - 9)%Z in
  let y := (yoe + era * 400)%Z in
  ((if m <=? 2 then y + 1 else y)%Z, m, d).

Definition two_digits (n : Z) : str :=
  if (n <? 10)%Z then 48 :: N_toString (Z.to_N n) else N_toString (Z.to_N n).

(** [new Date(t).toLocaleString()] in the locale [en-US] and the time zone
    UTC, for a date of the common era: month, day and year, then the time on
    a twelve-hour clock to the second, as in ["11/14/2023, 10:13:20 PM"];
    ["Invalid Date"] for [NaN] and beyond 8.64e15 milliseconds either side of
    1970. *)
Definition sample_toLocaleString (t : Number) : str :=
  match t with
  | NaN => lit "Invalid Date"
  | Num ms =>
      if (8640000000000000 <? Z.abs ms)%Z then lit "Invalid Date"
      else
        let seconds := (ms / 1000)%Z in
        let '(y, m, d) := civil_from_days (seconds / 86400) in
        let of_day := (seconds mod 86400)%Z in
        let hour := (of_day / 3600)%Z in
        let hour12 := (if hour mod 12 =? 0 then 12 else hour mod 12)%Z in
        Number_toString (Num m) ++ lit "/" ++ Number_toString (Num d)
        ++ lit "/" ++ Number_toString (Num y) ++ lit ", "
        ++ Number_toString (Num hour12) ++ lit ":"
        ++ two_digits ((of_day / 60) mod 60) ++ lit ":"
        ++ two_digits (of_day mod 60)
        ++ (if (hour <? 12)%Z then lit " AM" else lit " PM")
  end.

Definition sample_rt : Runtime :=
  {| JSON_parse := sample_parse;
     fetch := sample_fetch;
     Date_toISOString := fun k =>
       lit "2024-01-01T00:00:0" ++ N_toString (N.of_nat k) ++ lit ".000Z";
     Date_toLocaleString := sample_toLocaleString;
     TypeError_null_property := fun key =>
       lit "Cannot read property '" ++ key ++ lit "' of null";
     TypeError_to_primitive := lit "Cannot convert object to primitive value";
     telegram_settles_first := false |}.

Definition sample_sms : SMSMessage :=
  {| body := lit "hi"; address := lit "+15551234567";
     date := lit "1700000000000"; dateSent := lit "1700000000000" |}.

(** The same message, sent a while before it was received. *)
Definition sample_sms_sent_earlier : SMSMessage :=
  {| body := lit "hi"; address := lit "+15551234567";
     date := lit "1700000000000"; dateSent := lit "1600000000000" |}.

(** The same message again, received a day later. *)
Definition sample_sms_received_later : SMSMessage :=
  {| body := lit "hi"; address := lit "+15551234567";
     date := lit "1700086400000"; dateSent := lit "1700000000000" |}.

Definition quiet_listener : ErrorListener :=
  {| listener_ref := 7; listener_call := fun _ => Normal tt |}.

Definition throwing_listener : ErrorListener :=
  {| listener_ref := 8;
     listener_call := fun _ => Throw (Error (lit "listener failed")) |}.

(** Both destinations active; the server refuses both. *)
Definition both_config : ConfigData :=
  {| restApiEnabled := true;
     restApiUrl := lit "https://example.test/down";
     restApiHeaders := default_headers;
     telegramEnabled := true;
     telegramBotToken := lit "123:abc";
     telegramChatId := lit "42" |}.

(** The headers are not JSON. *)
Definition bad_headers_config : ConfigData :=
  {| restApiEnabled := true;
     restApiUrl := lit "https://example.test/sms";
     restApiHeaders := lit "{invalid json";
     telegramEnabled := true;
     telegramBotToken := lit "123:abc";
     telegramChatId := lit "42" |}.

(** The headers are JSON, but an array. *)
Definition array_headers_config : ConfigData :=
  {| restApiEnabled := true;
     restApiUrl := lit "https://example.test/sms";
     restApiHeaders := lit "[]";
     telegramEnabled := false;
     telegramBotToken := [];
     telegramChatId := [] |}.

(** A blank URL, and a bot token without a chat id. *)
Definition blank_config : ConfigData :=
  {| restApiEnabled := true;
     restApiUrl := lit " ";
     restApiHeaders := default_headers;
     telegramEnabled := true;
     telegramBotToken := lit "123:abc";
     telegramChatId := [] |}.


(** What [loadConfig] makes of [sample_config_text]: REST only. *)
Definition rest_only_config : ConfigData :=
  {| restApiEnabled := true;
     restApiUrl := lit "https://example.test/sms";
     restApiHeaders := default_headers;
     telegramEnabled := false;
     telegramBotToken := [];
     telegramChatId := [] |}.

(** Both destinations switched off. *)
Definition off_config : ConfigData :=
  {| restApiEnabled := false;
     restApiUrl := lit "https://example.test/sms";
     restApiHeaders := default_headers;
     telegramEnabled := false;
     telegramBotToken := lit "123:abc";
     telegramChatId := lit "42" |}.

(** A running dispatcher with two listeners, 41 messages counted so far. *)
Definition running_with (c : ConfigData) : State :=
  {| isRunning := true; config := Some c;
     errorListeners := [quiet_listener; throwing_listener];
     storage := <[lit "smsForwardedCount" := lit "41"]>
                  (<[lit "smsForwarderRunning" := lit "true"]> ∅);
     faults := []; clock := 0; trace := [] |}.

(** A fresh dispatcher over a store that holds the given configuration text. *)
Definition stopped_over (configText : str) : State :=
  {| isRunning := false; config := None; errorListeners := [quiet_listener];
     storage := <[lit "smsForwarderConfig" := configText]> ∅;
     faults := []; clock := 0; trace := [] |}.

(** The same with the next write to the store failing after a good read. *)
Definition stopped_over_failing_write (configText : str) : State :=
  {| isRunning := false; config := None; errorListeners := [quiet_listener];
     storage := <[lit "smsForwarderConfig" := configText]> ∅;
     faults := [None; Some (Error (lit "disk full"))]; clock := 0; trace := [] |}.


(** A running dispatcher after the stored configuration was edited. *)
Definition running_over (configText : str) : State :=
  {| isRunning := true; config := Some both_config;
     errorListeners := [quiet_listener; throwing_listener];
     storage := <[lit "smsForwarderConfig" := configText]>
                  (<[lit "smsForwarderRunning" := lit "true"]> ∅);
     faults := []; clock := 0; trace := [] |}.

(** A running dispatcher whose next store operation fails. *)
Definition running_failing_store : State :=
  {| isRunning := true; config := Some both_config; errorListeners := [];
     storage := <[lit "smsForwarderRunning" := lit "true"]> ∅;
     faults := [Some (Error (lit "disk full"))]; clock := 0; trace := [] |}.

(** A running dispatcher with both destinations off, whose next read of the
    store fails. *)
Definition running_off_failing_store : State :=
  {| isRunning := true; config := Some off_config;
     errorListeners := [quiet_listener; throwing_listener];
     storage := <[lit "smsForwardedCount" := lit "41"]>
                  (<[lit "smsForwarderRunning" := lit "true"]> ∅);
     faults := [Some (Error (lit "disk full"))]; clock := 0; trace := [] |}.

(** The same over a working store, the counter having reached [2^53]. *)
Definition running_off_counter_at_bound : State :=
  {| isRunning := true; config := Some off_config;
     errorListeners := [quiet_listener; throwing_listener];
     storage := <[lit "smsForwardedCount" := lit "9007199254740992"]>
                  (<[lit "smsForwarderRunning" := lit "true"]> ∅);
     faults := []; clock := 0; trace := [] |}.

(** ** The callers of the dispatcher

    The React components and hooks around the class.  A component is its
    state (what [useState] and [useRef] hold) next to the state above; a
    handler is a transformer of both.  One call of a handler runs without
    another handler in between, and reads the component state as of its
    start. *)

Definition UI (X A : Type) : Type := X -> State -> Completion A * (X * State).

#[global] Instance UI_ret {X} : MRet (UI X) := fun A a x st => (Normal a, (x, st)).

#[global] Instance UI_bind {X} : MBind (UI X) := fun A B f m x st =>
  match m x st with
  | (Normal a, (x', st')) => f a x' st'
  | (Throw e, xs) => (Throw e, xs)
  end.

(** [try { m } catch (error) { handler error }] in a handler *)
Definition UI_try_catch {X A} (m : UI X A) (handler : Exn -> UI X A) : UI X A :=
  fun x st =>
    match m x st with
    | (Normal a, xs) => (Normal a, xs)
    | (Throw e, (x', st')) => handler e x' st'
    end.

(** [await m] for a method [m] of the dispatcher or of the store *)
Definition await {X A} (m : M A) : UI X A := fun x st =>
  match m st with
  | (r, st') => (r, (x, st'))
  end.

Definition getState {X A} (f : X -> A) : UI X A := fun x st => (Normal (f x), (x, st)).

Definition setState {X} (f : X -> X) : UI X unit := fun x st => (Normal tt, (f x, st)).

(** *** The hook [useSMSListener] *)

Module AppState.

(** The type [AppStateStatus] of React Native. *)
Inductive AppStateStatus := active | background | inactive | unknown | extension.

Definition tag (s : AppStateStatus) : str :=
  match s with
  | active => lit "active"
  | background => lit "background"
  | inactive => lit "inactive"
  | unknown => lit "unknown"
  | extension => lit "extension"
  end.

Definition eqb (a b : AppStateStatus) : bool := str_eqb (tag a) (tag b).

End AppState.

Fixpoint starts_with (prefix s : str) : bool :=
  match prefix, s with
  | [], _ => true
  | p :: prefix', c :: s' => (p =? c) && starts_with prefix' s'
  | _ :: _, [] => false
  end.

(** [s] has [needle] as a substring. *)
Fixpoint includes (needle s : str) : bool :=
  starts_with needle s
  || match s with
     | [] => false
     | _ :: s' => includes needle s'
     end.

(** [s.match(/inactive|background/)] is not [null]. *)
Definition match_inactive_or_background (s : str) : bool :=
  includes (lit "inactive") s || includes (lit "background") s.

Section useSMSListener.

Variable rt : Runtime.

(** [handleSMS] of the hook. *)
Definition handleSMS (sms : SMSMessage) : M unit := fun this =>
  if isServiceRunning this then forwardSMS rt sms this else (Normal tt, this).

(** [handleAppStateChange]; the component state is [appState.current].
    [start().catch(console.error)] drops what [start] throws. *)
Definition handleAppStateChange (nextAppState : AppState.AppStateStatus)
  : UI AppState.AppStateStatus unit :=
  current ← getState (fun appState => appState);
  (if match_inactive_or_background (AppState.tag current)
      && AppState.eqb nextAppState AppState.active
   then await (try_catch (start rt) (fun _ => mret tt))
   else mret tt);;
  setState (fun _ => nextAppState).

End useSMSListener.

(** *** The home screen *)

(** The state of [HomePage]: [isRunning], [smsCount], [isConfigValid], and
    the alerts shown so far (title and message). *)
Record HomeState := {
  home_isRunning : bool;
  home_smsCount : Number;
  home_isConfigValid : bool;
  home_alerts : list (str * str);
}.

Definition setIsRunning (b : bool) : UI HomeState unit :=
  setState (fun h =>
    {| home_isRunning := b; home_smsCount := home_smsCount h;
       home_isConfigValid := home_isConfigValid h;
       home_alerts := home_alerts h |}).

Definition setSmsCount (n : Number) : UI HomeState unit :=
  setState (fun h =>
    {| home_isRunning := home_isRunning h; home_smsCount := n;
       home_isConfigValid := home_isConfigValid h;
       home_alerts := home_alerts h |}).

Definition setIsConfigValid (b : bool) : UI HomeState unit :=
  setState (fun h =>
    {| home_isRunning := home_isRunning h; home_smsCount := home_smsCount h;
       home_isConfigValid := b;
       home_alerts := home_alerts h |}).

(** [Alert.alert(title, message)] *)
Definition Alert_alert (title message : str) : UI HomeState unit :=
  setState (fun h =>
    {| home_isRunning := home_isRunning h; home_smsCount := home_smsCount h;
       home_isConfigValid := home_isConfigValid h;
       home_alerts := home_alerts h ++ [(title, message)] |}).

(** [running === 'true'] on a string or [null] *)
Definition is_true_text (s : option str) : bool :=
  match s with
  | Some t => str_eqb t (lit "true")
  | None => false
  end.

(** The home screen of [src/app/index.tsx]. *)
Module HomePage.
Section HomePage.

Variable rt : Runtime.

Definition loadStatus : UI HomeState unit :=
  UI_try_catch
    (running ← await (AsyncStorage_getItem (lit "smsForwarderRunning"));
     count ← await (AsyncStorage_getItem (lit "smsForwardedCount"));
     setIsRunning (is_true_text running);;
     setSmsCount (parseInt (or_default count (lit "0"))))
    (fun _ => mret tt).

Definition toggleService : UI HomeState unit :=
  UI_try_catch
    (isRunning ← getState home_isRunning;
     let newStatus := negb isRunning in
     (if newStatus then await (start rt) else await stop);;
     setIsRunning newStatus)
    (fun _ => Alert_alert (lit "Error") (lit "Failed to toggle service")).


End HomePage.
End HomePage.

(** The home screen that checks the configuration before it starts the
    dispatcher ([src/unnamed/part_001]). *)
Module HomePageChecked.
Section HomePageChecked.

Variable rt : Runtime.

Definition checkConfigurationValidity : UI HomeState unit :=
  UI_try_catch
    (isValid ← await (isConfigurationValid rt);
     setIsConfigValid isValid)
    (fun _ => setIsConfigValid false).

Definition loadStatus : UI HomeState unit :=
  UI_try_catch
    (running ← await (AsyncStorage_getItem (lit "smsForwarderRunning"));
     count ← await (AsyncStorage_getItem (lit "smsForwardedCount"));
     setIsRunning (is_true_text running);;
     setSmsCount (parseInt (or_default count (lit "0")));;
     checkConfigurationValidity)
    (fun _ => mret tt).

(** The title and the message of the alert of [toggleService]; the
    pictograph is a surrogate pair, the bullets are U+2022. *)
Definition setup_required_title : str :=
  [0xD83D; 0xDD27] ++ lit " Setup Required".

Definition setup_required_message : str :=
  lit "Please configure SMS forwarding first." ++ [10; 10]
  ++ lit "Go to Configuration and set up either:" ++ [10]
  ++ [0x2022] ++ lit " Telegram Bot" ++ [10]
  ++ [0x2022] ++ lit " REST API".

(** [toggleService]; the early [return] after the alert is the [None] of
    the first step. *)
Definition toggleService : UI HomeState unit :=
  UI_try_catch
    (isRunning ← getState home_isRunning;
     let newStatus := negb isRunning in
     proceed ←
       (if newStatus then
          isValid ← await (isConfigurationValid rt);
          if negb isValid
          then Alert_alert setup_required_title setup_required_message;;
               mret false
          else await (start rt);; mret true
        else await stop;; mret true);
     if (proceed : bool) then setIsRunning newStatus else mret tt)
    (fun _ => mret tt).

End HomePageChecked.
End HomePageChecked.

(** *** The configuration screen *)

Section ConfigPage.

(** [JSON.stringify], of the runtime. *)
Variable JSON_stringify : JSON -> str.

(** A configuration object as [JSON.stringify] sees it. *)
Definition config_json (c : ConfigData) : JSON :=
  JObj [ (lit "restApiEnabled", JBool (restApiEnabled c));
         (lit "restApiUrl", JStr (restApiUrl c));
         (lit "restApiHeaders", JStr (restApiHeaders c));
         (lit "telegramEnabled", JBool (telegramEnabled c));
         (lit "telegramBotToken", JStr (telegramBotToken c));
         (lit "telegramChatId", JStr (telegramChatId c)) ].

Definition autoSaveConfig (configToSave : ConfigData) : M unit :=
  try_catch
    (AsyncStorage_setItem (lit "smsForwarderConfig")
                          (JSON_stringify (config_json configToSave)))
    (fun _ => mret tt).

End ConfigPage.

(** *** The dark mode provider

    The component state is [isDarkMode]; [systemColorScheme] is what
    [useColorScheme] returned. *)

Inductive ColorScheme := light | dark.

(** [systemColorScheme === 'dark'] *)
Definition is_dark (systemColorScheme : option ColorScheme) : bool :=
  match systemColorScheme with
  | Some dark => true
  | Some light | None => false
  end.

(** [b.toString()] *)
Definition Boolean_toString (b : bool) : str :=
  if b then lit "true" else lit "false".

Definition loadDarkModeSetting (systemColorScheme : option ColorScheme)
  : UI bool unit :=
  UI_try_catch
    (savedDarkMode ← await (AsyncStorage_getItem (lit "darkMode"));
     match savedDarkMode with
     | None => setState (fun _ => is_dark systemColorScheme)
     | Some saved => setState (fun _ => str_eqb saved (lit "true"))
     end)
    (fun _ => setState (fun _ => is_dark systemColorScheme)).

Definition toggleDarkMode : UI bool unit :=
  UI_try_catch
    (isDarkMode ← getState (fun isDarkMode => isDarkMode);
     let newDarkMode := negb isDarkMode in
     setState (fun _ => newDarkMode);;
     await (AsyncStorage_setItem (lit "darkMode") (Boolean_toString newDarkMode)))
    (fun _ => mret tt).

(** *** The mock message source

    [MockSMSListener] of [src/unnamed/part_002]: its listeners (by identity),
    its [intervalId], and of the runtime the intervals that are set and the
    next handle [setInterval] will return (handles are positive numbers). *)

Record MockSMSListener := {
  mock_listeners : list nat;
  intervalId : option positive;
  active_intervals : list positive;
  next_interval : positive;
}.

Definition Mock_addListener (callback : nat) (m : MockSMSListener)
  : MockSMSListener :=
  {| mock_listeners := mock_listeners m ++ [callback];
     intervalId := intervalId m;
     active_intervals := active_intervals m;
     next_interval := next_interval m |}.

Definition Mock_removeListener (callback : nat) (m : MockSMSListener)
  : MockSMSListener :=
  {| mock_listeners :=
       List.filter (fun listener => negb (listener =? callback)%nat)
                   (mock_listeners m);
     intervalId := intervalId m;
     active_intervals := active_intervals m;
     next_interval := next_interval m |}.

Definition Mock_start (m : MockSMSListener) : MockSMSListener :=
  match intervalId m with
  | Some _ => m
  | None =>
      {| mock_listeners := mock_listeners m;
         intervalId := Some (next_interval m);
         active_intervals := active_intervals m ++ [next_interval m];
         next_interval := Pos.succ (next_interval m) |}
  end.

Definition Mock_stop (m : MockSMSListener) : MockSMSListener :=
  match intervalId m with
  | Some id =>
      {| mock_listeners := mock_listeners m;
         intervalId := None;
         active_intervals :=
           List.filter (fun i => negb (i =? id)%positive) (active_intervals m);
         next_interval := next_interval m |}
  | None => m
  end.

(** [new MockSMSListener()] in a runtime with no interval set. *)
Definition Mock_new : MockSMSListener :=
  {| mock_listeners := []; intervalId := None;
     active_intervals := []; next_interval := 1 |}.

Inductive MockCall :=
| CallStart
| CallStop
| CallAddListener (callback : nat)
| CallRemoveListener (callback : nat).

Definition Mock_call (m : MockSMSListener) (c : MockCall) : MockSMSListener :=
  match c with
  | CallStart => Mock_start m
  | CallStop => Mock_stop m
  | CallAddListener callback => Mock_addListener callback m
  | CallRemoveListener callback => Mock_removeListener callback m
  end.

(** The effect of [useSMSListener] on the shared mock source: what it does
    when the component mounts, and its cleanup. *)
Definition useSMSListener_mount (handleSMS : nat) (m : MockSMSListener)
  : MockSMSListener :=
  Mock_start (Mock_addListener handleSMS m).

Definition useSMSListener_cleanup (handleSMS : nat) (m : MockSMSListener)
  : MockSMSListener :=
  Mock_stop (Mock_removeListener handleSMS m).

(** ** Stored fields

    How a field of the stored configuration object relates to the field
    loaded: stored as a string (or a boolean) of that value, or missing and
    loaded as the empty string (or [false]). *)

Definition loaded_string (v : option JSON) (s : str) : Prop :=
  v = Some (JStr s) \/ (v = None /\ s = []).

Definition loaded_flag (v : option JSON) (b : bool) : Prop :=
  v = Some (JBool b) \/ (v = None /\ b = false).

(** ** Sequences of calls *)

(** [handleSMS] for each message of a list, one after the other. *)
Fixpoint handleSMS_all (rt : Runtime) (messages : list SMSMessage) : M unit :=
  match messages with
  | [] => mret tt
  | sms :: rest => handleSMS rt sms;; handleSMS_all rt rest
  end.

(** ** More of the runtime and states for the examples *)

(** *** [JSON.stringify] and [JSON.parse]

    The printer is [JSON.stringify(v)] without replacer or indentation, for
    values without a [toJSON] property, the properties of an object taken in
    the order of the list.  A string is quoted as [QuoteJSONString] does:
    the quote and the backslash get a backslash, the control characters
    their short escape or [\u00xx], a surrogate without its partner
    [\udxxx], and every other code unit is copied. *)

Definition hex_digit (d : N) : N := if d <? 10 then 48 + d else 87 + d.

Definition unicode_escape (c : N) : str :=
  [92; 117; hex_digit ((c / 4096) mod 16); hex_digit ((c / 256) mod 16);
   hex_digit ((c / 16) mod 16); hex_digit (c mod 16)].

Definition is_high_surrogate (c : N) : bool := (0xD800 <=? c) && (c <=? 0xDBFF).

Definition is_low_surrogate (c : N) : bool := (0xDC00 <=? c) && (c <=? 0xDFFF).

Fixpoint quote_units (s : str) : str :=
  match s with
  | [] => []
  | c :: r =>
      if c =? 8 then 92 :: 98 :: quote_units r
      else if c =? 9 then 92 :: 116 :: quote_units r
      else if c =? 10 then 92 :: 110 :: quote_units r
      else if c =? 12 then 92 :: 102 :: quote_units r
      else if c =? 13 then 92 :: 114 :: quote_units r
      else if c =? 34 then 92 :: 34 :: quote_units r
      else if c =? 92 then 92 :: 92 :: quote_units r
      else if c <? 32 then unicode_escape c ++ quote_units r
      else if is_high_surrogate c then
        match r with
        | d :: r' =>
            if is_low_surrogate d then c :: d :: quote_units r'
            else unicode_escape c ++ quote_units r
        | [] => unicode_escape c
        end
      else if is_low_surrogate c then unicode_escape c ++ quote_units r
      else c :: quote_units r
  end.

Definition QuoteJSONString (s : str) : str := 34 :: quote_units s ++ [34].

(** A number is printed as [String] prints it, and [null] when it is not
    finite. *)
Definition stringify_number (repr : str) : str :=
  if str_eqb repr (lit "NaN") || str_eqb repr (lit "Infinity")
     || str_eqb repr (lit "-Infinity")
  then lit "null" else repr.

Fixpoint sample_stringify (v : JSON) : str :=
  match v with
  | JNull => lit "null"
  | JBool b => Boolean_toString b
  | JNum repr => stringify_number repr
  | JStr s => QuoteJSONString s
  | JArr items =>
      lit "["
      ++ (fix join (l : list JSON) : str :=
            match l with
            | [] => []
            | x :: l' =>
                sample_stringify x
                ++ match l' with [] => [] | _ :: _ => 44 :: join l' end
            end) items
      ++ lit "]"
  | JObj props =>
      lit "{"
      ++ (fix join (l : list (str * JSON)) : str :=
            match l with
            | [] => []
            | (k, x) :: l' =>
                QuoteJSONString k ++ lit ":" ++ sample_stringify x
                ++ match l' with [] => [] | _ :: _ => 44 :: join l' end
            end) props
      ++ lit "}"
  end.

(** The parser reads the JSON grammar: white space, [null], [true],
    [false], strings with their escapes, arrays and objects.  Of the numbers
    it reads the integers up to [2^53] in magnitude, written without fraction
    and exponent; a text with another number is outside of it and is
    rejected like a text that is not JSON.  A name that occurs twice in an
    object keeps its place and takes the later value. *)

Definition is_json_space (c : N) : bool :=
  (c =? 32) || (c =? 9) || (c =? 10) || (c =? 13).

Fixpoint skip_space (s : str) : str :=
  match s with
  | c :: r => if is_json_space c then skip_space r else s
  | [] => []
  end.

Definition hex4 (h1 h2 h3 h4 : N) : option N :=
  match digit_value 16 h1, digit_value 16 h2, digit_value 16 h3, digit_value 16 h4 with
  | Some a, Some b, Some c, Some d => Some (4096 * a + 256 * b + 16 * c + d)
  | _, _, _, _ => None
  end.

(** The code unit that [\e] stands for. *)
Definition simple_escape (e : N) : option N :=
  if e =? 34 then Some 34
  else if e =? 92 then Some 92
  else if e =? 47 then Some 47
  else if e =? 98 then Some 8
  else if e =? 102 then Some 12
  else if e =? 110 then Some 10
  else if e =? 114 then Some 13
  else if e =? 116 then Some 9
  else None.

(** The string that ends at the next quote, after [acc] (kept reversed), and
    the text behind the quote. *)
Fixpoint scan_string (s : str) (acc : str) : option (str * str) :=
  match s with
  | [] => None
  | c :: r =>
      if c =? 34 then Some (rev acc, r)
      else if c =? 92 then
        match r with
        | e :: r1 =>
            if e =? 117 then
              match r1 with
              | h1 :: h2 :: h3 :: h4 :: r2 =>
                  match hex4 h1 h2 h3 h4 with
                  | Some u => scan_string r2 (u :: acc)
                  | None => None
                  end
              | _ => None
              end
            else
              match simple_escape e with
              | Some u => scan_string r1 (u :: acc)
              | None => None
              end
        | [] => None
        end
      else if c <? 32 then None
      else scan_string r (c :: acc)
  end.

Fixpoint span_digits (s : str) : str * str :=
  match s with
  | c :: r =>
      if is_decimal_digit c
      then let '(digits, rest) := span_digits r in (c :: digits, rest)
      else ([], s)
  | [] => ([], [])
  end.

(** An integer literal: an optional minus sign, then [0] or digits that do
    not start with [0]. *)
Definition scan_number (s : str) : option (JSON * str) :=
  let '(negative, s1) :=
    match s with
    | c :: r => if c =? 45 then (true, r) else (false, s)
    | [] => (false, s)
    end in
  let '(digits, rest) := span_digits s1 in
  let continues :=
    match rest with
    | c :: _ => (c =? 46) || (c =? 101) || (c =? 69)
    | [] => false
    end in
  let well_formed :=
    match digits with
    | [] => false
    | [_] => true
    | c :: _ :: _ => negb (c =? 48)
    end in
  let n := Z.of_N (scan_digits 10 digits 0) in
  if well_formed && negb continues && (n <=? safe_bound)%Z
  then Some (JNum (Number_toString (Num (if negative then - n else n)%Z)), rest)
  else None.

Fixpoint set_prop (key : str) (v : JSON) (props : list (str * JSON))
  : list (str * JSON) :=
  match props with
  | [] => [(key, v)]
  | (k, x) :: props' =>
      if str_eqb k key then (k, v) :: props' else (k, x) :: set_prop key v props'
  end.

(** What the parser is reading: a value, the elements of an array after
    those of [items] (kept reversed), or the members of an object after
    [props]. *)
Inductive Reading :=
| AValue
| Elements (items : list JSON)
| Members (props : list (str * JSON)).

Fixpoint parse_JSON (fuel : nat) (reading : Reading) (s : str)
  : option (JSON * str) :=
  match fuel with
  | O => None
  | S fuel' =>
      match reading with
      | AValue =>
          match skip_space s with
          | [] => None
          | c :: r =>
              if c =? 123 then
                match skip_space r with
                | c1 :: r1 =>
                    if c1 =? 125 then Some (JObj [], r1)
                    else parse_JSON fuel' (Members []) r
                | [] => None
                end
              else if c =? 91 then
                match skip_space r with
                | c1 :: r1 =>
                    if c1 =? 93 then Some (JArr [], r1)
                    else parse_JSON fuel' (Elements []) r
                | [] => None
                end
              else if c =? 34 then
                match scan_string r [] with
                | Some (v, r1) => Some (JStr v, r1)
                | None => None
                end
              else if starts_with (lit "null") (c :: r)
              then Some (JNull, drop 4 (c :: r))
              else if starts_with (lit "true") (c :: r)
              then Some (JBool true, drop 4 (c :: r))
              else if starts_with (lit "false") (c :: r)
              then Some (JBool false, drop 5 (c :: r))
              else scan_number (c :: r)
          end
      | Elements items =>
          match parse_JSON fuel' AValue s with
          | Some (v, r) =>
              match skip_space r with
              | c :: r1 =>
                  if c =? 44 then parse_JSON fuel' (Elements (v :: items)) r1
                  else if c =? 93 then Some (JArr (rev (v :: items)), r1)
                  else None
              | [] => None
              end
          | None => None
          end
      | Members props =>
          match skip_space s with
          | c :: r =>
              if c =? 34 then
                match scan_string r [] with
                | Some (key, r1) =>
                    match skip_space r1 with
                    | c1 :: r2 =>
                        if c1 =? 58 then
                          match parse_JSON fuel' AValue r2 with
                          | Some (v, r3) =>
                              match skip_space r3 with
                              | c2 :: r4 =>
                                  if c2 =? 44
                                  then parse_JSON fuel' (Members (set_prop key v props)) r4
                                  else if c2 =? 125
                                  then Some (JObj (set_prop key v props), r4)
                                  else None
                              | [] => None
                              end
                          | None => None
                          end
                        else None
                    | [] => None
                    end
                | None => None
                end
              else None
          | [] => None
          end
      end
  end.

(** [JSON.parse(s)]: one value, with nothing but white space around it. *)
Definition sample_JSON_parse (s : str) : Completion JSON :=
  match parse_JSON (2 * length s + 2) AValue s with
  | Some (v, r) =>
      if is_empty (skip_space r) then Normal v
      else Throw (Error (lit "JSON Parse error: Unexpected token"))
  | None => Throw (Error (lit "JSON Parse error: Unexpected token"))
  end.

(** The runtime of the examples with this parser. *)
Definition sample_rt_saved : Runtime :=
  {| JSON_parse := sample_JSON_parse;
     fetch := sample_fetch;
     Date_toISOString := Date_toISOString sample_rt;
     Date_toLocaleString := sample_toLocaleString;
     TypeError_null_property := TypeError_null_property sample_rt;
     TypeError_to_primitive := TypeError_to_primitive sample_rt;
     telegram_settles_first := true |}.

Definition home_initial : HomeState :=
  {| home_isRunning := false; home_smsCount := Num 0;
     home_isConfigValid := false; home_alerts := [] |}.

Definition home_running : HomeState :=
  {| home_isRunning := true; home_smsCount := Num 41;
     home_isConfigValid := true; home_alerts := [] |}.

(** A fresh dispatcher over a store that holds nothing. *)
Definition stopped_over_nothing : State :=
  {| isRunning := false; config := None; errorListeners := [quiet_listener];
     storage := ∅; faults := []; clock := 0; trace := [] |}.

(** A running dispatcher whose counter was overwritten with a text that is
    no number. *)
Definition running_corrupt_count : State :=
  {| isRunning := true; config := Some off_config; errorListeners := [];
     storage := <[lit "smsForwardedCount" := lit "n/a"]> ∅;
     faults := []; clock := 0; trace := [] |}.

(** * Properties *)

(** *** Facts about strings and numbers *)

Lemma trimStart_nil_iff_trim (s : str) : trim s = [] <-> trimStart s = [].
Proof.
  unfold trim, trimEnd. split.
  - intros H. destruct (trimStart s) as [|c t] eqn:E; [reflexivity|].
    exfalso.
    assert (Hns : isWhiteSpace c = false).
    { destruct s as [|c0 s0]; [discriminate|].
      revert E. clear. revert c0.
      induction s0 as [|c1 s1 IH]; intros c0 E; simpl in E.
      - destruct (isWhiteSpace c0) eqn:W; [discriminate|]. congruence.
      - destruct (isWhiteSpace c0) eqn:W.
        + apply (IH c1). exact E.
        + congruence. }
    assert (Hlast : forall (u : str) x, isWhiteSpace x = false ->
                     trimStart (u ++ [x]) <> []).
    { clear. induction u as [|y u IH]; intros x Hx; simpl.
      - rewrite Hx. discriminate.
      - destruct (isWhiteSpace y); [apply IH; exact Hx | discriminate]. }
    apply (f_equal (@rev N)) in H. rewrite rev_involutive in H. simpl in H.
    exact (Hlast (rev t) c Hns H).
  - intros ->. reflexivity.
Qed.

Lemma trim_nil : trim [] = [].
Proof. reflexivity. Qed.

(** [s && s.trim() !== ''] is just [s.trim() !== '']. *)
Lemma nonempty_and_trim (s : str) :
  negb (is_empty s) && negb (is_empty (trim s)) = negb (is_empty (trim s)).
Proof. destruct s; reflexivity. Qed.

Lemma is_empty_false_iff (s : str) : is_empty s = false <-> s <> [].
Proof. destruct s; simpl; split; congruence. Qed.

Lemma is_empty_true_iff (s : str) : is_empty s = true <-> s = [].
Proof. destruct s; simpl; split; congruence. Qed.

Lemma to_digits_all_decimal (fuel : nat) :
  forall n acc, forallb is_decimal_digit acc = true ->
    forallb is_decimal_digit (to_digits fuel n acc) = true.
Proof.
  assert (Hd : forall n, is_decimal_digit (48 + n mod 10) = true).
  { intros n. unfold is_decimal_digit.
    pose proof (N.mod_upper_bound n 10 ltac:(discriminate)) as Hm.
    set (m := n mod 10) in *. clearbody m.
    apply andb_true_iff. split; apply N.leb_le; lia. }
  induction fuel as [|f IH]; intros n acc Hacc; simpl.
  - rewrite Hd. exact Hacc.
  - destruct (n <? 10).
    + simpl. rewrite Hd. exact Hacc.
    + apply IH. simpl. rewrite Hd. exact Hacc.
Qed.

Lemma to_digits_nonempty (fuel : nat) (n : N) (acc : str) :
  to_digits fuel n acc <> [].
Proof.
  revert n acc. induction fuel as [|f IH]; intros n acc; simpl.
  - discriminate.
  - destruct (n <? 10); [discriminate | apply IH].
Qed.

Lemma digit_value_decimal (c : N) :
  is_decimal_digit c = true -> digit_value 10 c = Some (c - 48).
Proof.
  unfold is_decimal_digit, digit_value. intros H. rewrite H.
  apply andb_true_iff in H. destruct H as [H1 H2].
  apply N.leb_le in H1, H2.
  destruct (c - 48 <? 10) eqn:E; [reflexivity|].
  apply N.ltb_ge in E. lia.
Qed.

(** Scanning the digits printed for [n] in front of [acc] is scanning [acc]
    from the value [n]. *)
Lemma scan_to_digits (fuel : nat) :
  forall n acc, n < 2 ^ N.of_nat (S fuel) ->
    scan_digits 10 (to_digits fuel n acc) 0 = scan_digits 10 acc n.
Proof.
  assert (Hstep : forall n acc,
            scan_digits 10 ((48 + n mod 10) :: acc) (n / 10)
            = scan_digits 10 acc n).
  { intros n acc. simpl.
    pose proof (N.mod_upper_bound n 10 ltac:(discriminate)) as Hm.
    pose proof (N.div_mod n 10 ltac:(discriminate)) as Hdm.
    set (m := n mod 10) in *. set (q := n / 10) in *. clearbody m q.
    rewrite digit_value_decimal.
    2:{ unfold is_decimal_digit. apply andb_true_iff.
        split; apply N.leb_le; lia. }
    f_equal. lia. }
  assert (Hsmall : forall n acc, n < 10 ->
            scan_digits 10 ((48 + n mod 10) :: acc) 0 = scan_digits 10 acc n).
  { intros n acc Hn. rewrite <- (Hstep n acc).
    rewrite (N.div_small n 10 Hn). reflexivity. }
  induction fuel as [|f IH]; intros n acc Hn.
  - cbn [to_digits]. apply Hsmall. simpl in Hn. lia.
  - cbn [to_digits]. destruct (n <? 10) eqn:E.
    + apply Hsmall. apply N.ltb_lt. exact E.
    + apply N.ltb_ge in E. rewrite IH.
      * apply Hstep.
      * replace (N.of_nat (S (S f))) with (N.succ (N.of_nat (S f))) in Hn by lia.
        rewrite N.pow_succ_r' in Hn.
        apply N.Div0.div_lt_upper_bound. lia.
Qed.

Lemma scan_N_toString (n : N) : scan_digits 10 (N_toString n) 0 = n.
Proof.
  unfold N_toString. rewrite scan_to_digits; [reflexivity|].
  destruct (N.eq_dec n 0) as [->|Hn]; [reflexivity|].
  rewrite Nat2N.inj_succ, N2Nat.id.
  apply N.log2_spec. lia.
Qed.

Lemma N_toString_decimal (n : N) :
  forallb is_decimal_digit (N_toString n) = true.
Proof. apply to_digits_all_decimal. reflexivity. Qed.

Lemma decimal_not_space (c : N) :
  is_decimal_digit c = true -> isWhiteSpace c = false.
Proof.
  unfold is_decimal_digit, isWhiteSpace. intros H.
  apply andb_true_iff in H. destruct H as [H1 H2].
  apply N.leb_le in H1, H2.
  repeat (apply orb_false_iff; split);
    try (apply N.eqb_neq; lia).
  apply andb_false_iff. left. apply N.leb_gt. lia.
Qed.

Lemma decimal_no_hex_prefix (s : str) :
  forallb is_decimal_digit s = true ->
  match s with
  | c0 :: c1 :: r =>
      if (c0 =? 48) && ((c1 =? 120) || (c1 =? 88)) then (16, r) else (10, s)
  | _ => (10, s)
  end = (10, s).
Proof.
  intros Hd. destruct s as [|c0 [|c1 r]]; try reflexivity.
  simpl in Hd. apply andb_true_iff in Hd. destruct Hd as [_ Hd].
  apply andb_true_iff in Hd. destruct Hd as [Hc1 _].
  unfold is_decimal_digit in Hc1. apply andb_true_iff in Hc1.
  destruct Hc1 as [Ha Hb]. apply N.leb_le in Ha, Hb.
  replace (c1 =? 120) with false by (symmetry; apply N.eqb_neq; lia).
  replace (c1 =? 88) with false by (symmetry; apply N.eqb_neq; lia).
  rewrite andb_false_r. reflexivity.
Qed.

Lemma decimal_starts_with_digit (s : str) :
  s <> [] -> forallb is_decimal_digit s = true -> starts_with_digit 10 s = true.
Proof.
  intros Hne Hd. destruct s as [|c s]; [congruence|].
  simpl in Hd. apply andb_true_iff in Hd. destruct Hd as [Hc _].
  simpl. rewrite (digit_value_decimal c Hc). reflexivity.
Qed.

(** Parsing a run of decimal digits (as [toString] prints them) with
    [parseInt] gives back its value. *)
Lemma parseInt_decimal (s : str) :
  s <> [] -> forallb is_decimal_digit s = true ->
  parseInt s = Num (round_double (Z.of_N (scan_digits 10 s 0))).
Proof.
  intros Hne Hd. pose proof (decimal_no_hex_prefix s Hd) as Hradix.
  pose proof (decimal_starts_with_digit s Hne Hd) as Hstart.
  destruct s as [|c s]; [congruence|].
  pose proof Hd as Hd'. simpl in Hd'. apply andb_true_iff in Hd'.
  destruct Hd' as [Hc _].
  pose proof Hc as Hc'. unfold is_decimal_digit in Hc'.
  apply andb_true_iff in Hc'. destruct Hc' as [Hc1 Hc2].
  apply N.leb_le in Hc1, Hc2.
  unfold parseInt. cbn [trimStart]. rewrite (decimal_not_space c Hc).
  replace (c =? 45) with false by (symmetry; apply N.eqb_neq; lia).
  replace (c =? 43) with false by (symmetry; apply N.eqb_neq; lia).
  rewrite Hradix, Hstart. reflexivity.
Qed.

Lemma parseInt_minus_decimal (s : str) :
  s <> [] -> forallb is_decimal_digit s = true ->
  parseInt (45 :: s) = Num (round_double (- Z.of_N (scan_digits 10 s 0))).
Proof.
  intros Hne Hd. pose proof (decimal_no_hex_prefix s Hd) as Hradix.
  pose proof (decimal_starts_with_digit s Hne Hd) as Hstart.
  unfold parseInt. cbn [trimStart].
  replace (isWhiteSpace 45) with false by reflexivity.
  replace (45 =? 45) with true by reflexivity.
  rewrite Hradix, Hstart. reflexivity.
Qed.

(** What [toString] prints for an integer, [parseInt] reads back (and
    rounds). *)
Lemma parseInt_Number_toString (z : Z) :
  parseInt (Number_toString (Num z)) = Num (round_double z).
Proof.
  unfold Number_toString. destruct (z <? 0)%Z eqn:E.
  - apply Z.ltb_lt in E. rewrite parseInt_minus_decimal.
    + rewrite scan_N_toString. do 2 f_equal. lia.
    + apply to_digits_nonempty.
    + apply N_toString_decimal.
  - apply Z.ltb_ge in E. rewrite parseInt_decimal.
    + rewrite scan_N_toString. do 2 f_equal. lia.
    + apply to_digits_nonempty.
    + apply N_toString_decimal.
Qed.

(** Integers up to [2^53] in magnitude are doubles. *)
Lemma round_double_safe (z : Z) :
  (Z.abs z <= safe_bound)%Z -> round_double z = z.
Proof.
  intros H. unfold round_double.
  destruct (Z.abs z <? safe_bound)%Z eqn:E; [reflexivity|].
  apply Z.ltb_ge in E.
  assert (Hz : z = safe_bound \/ z = (- safe_bound)%Z) by lia.
  destruct Hz as [-> | ->]; vm_compute; reflexivity.
Qed.

Lemma str_eqb_eq (a b : str) : str_eqb a b = true <-> a = b.
Proof.
  revert b. induction a as [|x a IH]; intros [|y b]; simpl;
    try (split; congruence).
  rewrite andb_true_iff, N.eqb_eq, IH. split.
  - intros [-> ->]. reflexivity.
  - intros H. inversion H. auto.
Qed.

(** ** Running the methods *)

Lemma add_effects_nil (st : State) : add_effects [] st = st.
Proof. destruct st. unfold add_effects. simpl. rewrite app_nil_r. reflexivity. Qed.

Lemma add_effects_record (e : Effect) (es : list Effect) (st : State) :
  add_effects es (record_effect e st) = add_effects (e :: es) st.
Proof.
  unfold add_effects, record_effect. simpl. rewrite <- app_assoc. reflexivity.
Qed.

Lemma call_listener_run (ev : ErrorEvent) (l : ErrorListener) (st : State) :
  call_listener ev l st
  = (Normal tt, record_effect (Delivered (listener_ref l) ev) st).
Proof.
  unfold call_listener, try_catch, mbind, M_bind, modify, liftC. simpl.
  destruct (listener_call l ev) as [[]|e]; reflexivity.
Qed.

Lemma forEach_call_listener (ev : ErrorEvent) (ls : list ErrorListener) :
  forall st, forEach (call_listener ev) ls st
             = (Normal tt, add_effects (deliveries ev ls) st).
Proof.
  induction ls as [|l ls IH]; intros st.
  - simpl. rewrite add_effects_nil. reflexivity.
  - cbn [forEach]. unfold mbind, M_bind. rewrite call_listener_run.
    rewrite IH. simpl. rewrite add_effects_record. reflexivity.
Qed.

Lemma emitError_run (rt : Runtime) (ty : ErrorType) (msg : str) (st : State) :
  emitError rt ty msg st = (Normal tt, emitted rt ty msg st).
Proof.
  unfold emitError, mbind, M_bind, new_Date_toISOString, gets. simpl.
  rewrite forEach_call_listener. reflexivity.
Qed.

Lemma resume_rest_run (rt : Runtime) (request : Request) (st : State) :
  forwardToRestAPI_resume rt request st
  = (Normal tt, resume_rest rt (Some request) st).
Proof.
  unfold forwardToRestAPI_resume, try_catch, liftC, resume_rest, after_settle.
  destruct (rest_settle rt request) as [[]|e]; [reflexivity|].
  unfold rest_catch. apply emitError_run.
Qed.

Lemma resume_telegram_run (rt : Runtime) (request : Request) (st : State) :
  forwardToTelegram_resume rt request st
  = (Normal tt, resume_telegram rt (Some request) st).
Proof.
  unfold forwardToTelegram_resume, try_catch, liftC, resume_telegram, after_settle.
  destruct (telegram_settle rt request) as [[]|e]; [reflexivity|].
  unfold telegram_catch. apply emitError_run.
Qed.

Lemma begin_rest_run (rt : Runtime) (sms : SMSMessage) (c : ConfigData)
    (st : State) :
  config st = Some c ->
  forwardToRestAPI_begin rt sms st
  = (Normal (fst (begin_rest rt sms c st)), snd (begin_rest rt sms c st)).
Proof.
  intros Hc.
  unfold forwardToRestAPI_begin, begin_rest, mbind, M_bind, gets.
  rewrite Hc. unfold try_catch, liftC, new_Date_toISOString, modify.
  destruct (JSON_parse rt (restApiHeaders c)) as [h|e]; simpl.
  - reflexivity.
  - unfold rest_catch. rewrite emitError_run. reflexivity.
Qed.

Lemma begin_telegram_run (rt : Runtime) (sms : SMSMessage) (c : ConfigData)
    (st : State) :
  config st = Some c ->
  forwardToTelegram_begin rt sms st
  = (Normal (Some (telegram_request rt c sms)),
     record_effect (NetworkCall (telegram_request rt c sms)) st).
Proof.
  intros Hc.
  unfold forwardToTelegram_begin, mbind, M_bind, gets.
  rewrite Hc. reflexivity.
Qed.

Lemma getItem_run (key : str) (st : State) :
  AsyncStorage_getItem key st
  = match faults st with
    | Some e :: fs => (Throw e, set_faults fs st)
    | _ => (Normal (storage st !! key), set_faults (tl (faults st)) st)
    end.
Proof.
  unfold AsyncStorage_getItem, mbind, M_bind, next_fault.
  destruct (faults st) as [|[e|] fs]; reflexivity.
Qed.

Lemma setItem_run (key value : str) (st : State) :
  AsyncStorage_setItem key value st
  = match faults st with
    | Some e :: fs => (Throw e, set_faults fs st)
    | _ => (Normal tt,
            set_storage (<[key := value]> (storage st))
                        (set_faults (tl (faults st)) st))
    end.
Proof.
  unfold AsyncStorage_setItem, mbind, M_bind, next_fault.
  destruct (faults st) as [|[e|] fs]; reflexivity.
Qed.

Lemma incrementSMSCount_normal (st : State) :
  fst (incrementSMSCount st) = Normal tt.
Proof.
  unfold incrementSMSCount, try_catch, mbind, M_bind.
  rewrite getItem_run.
  destruct (faults st) as [|[e|] fs] eqn:Ef; cbv beta iota;
    try reflexivity; rewrite setItem_run; cbn [faults set_faults tl];
    try reflexivity; destruct fs as [|[e'|] fs']; reflexivity.
Qed.

(** The increment touches the store and nothing else. *)
Lemma incrementSMSCount_frame (st : State) :
  let st' := snd (incrementSMSCount st) in
  isRunning st' = isRunning st /\ config st' = config st
  /\ errorListeners st' = errorListeners st /\ clock st' = clock st
  /\ trace st' = trace st.
Proof.
  unfold incrementSMSCount, try_catch, mbind, M_bind.
  rewrite getItem_run.
  destruct (faults st) as [|[e|] fs] eqn:Ef; cbv beta iota;
    try (repeat split; reflexivity); rewrite setItem_run;
    cbn [faults set_faults tl]; try (repeat split; reflexivity);
    destruct fs as [|[e'|] fs']; repeat split; reflexivity.
Qed.

Lemma incrementSMSCount_works (st : State) :
  storage_works 2 st = true ->
  storage (snd (incrementSMSCount st))
  = <[lit "smsForwardedCount" :=
        Number_toString
          (add1 (parseInt (or_default (storage st !! lit "smsForwardedCount")
                                      (lit "0"))))]> (storage st).
Proof.
  unfold storage_works, incrementSMSCount, try_catch, mbind, M_bind.
  rewrite getItem_run.
  destruct (faults st) as [|[e|] fs] eqn:Ef; cbv beta iota;
    try discriminate; intros Hw; rewrite setItem_run;
    cbn [faults set_faults tl]; try reflexivity;
    destruct fs as [|[e'|] fs']; try discriminate; reflexivity.
Qed.

(** ** What the sends leave alone *)

Lemma same_frame_refl (st : State) : same_frame st st.
Proof. unfold same_frame. repeat split; reflexivity. Qed.

Lemma same_frame_trans (a b c : State) :
  same_frame a b -> same_frame b c -> same_frame a c.
Proof.
  unfold same_frame. intros (H1 & H2 & H3 & H4 & H5) (G1 & G2 & G3 & G4 & G5).
  repeat split; congruence.
Qed.

(** Emitting an error changes the clock and the trace only. *)
Lemma emitted_frame (rt : Runtime) (ty : ErrorType) (msg : str) (st : State) :
  same_frame st (emitted rt ty msg st).
Proof. unfold same_frame. repeat split; reflexivity. Qed.

Lemma record_effect_frame (e : Effect) (st : State) :
  same_frame st (record_effect e st).
Proof. unfold same_frame. repeat split; reflexivity. Qed.

Lemma after_settle_frame (rt : Runtime) ty prefix outcome (st : State) :
  same_frame st (after_settle rt ty prefix outcome st).
Proof. destruct outcome; [apply same_frame_refl | apply emitted_frame]. Qed.

Lemma begin_rest_frame (rt : Runtime) sms c (st : State) :
  same_frame st (snd (begin_rest rt sms c st)).
Proof.
  unfold begin_rest. destruct (JSON_parse rt (restApiHeaders c)); simpl.
  - unfold same_frame. repeat split; reflexivity.
  - apply emitted_frame.
Qed.

Lemma resume_rest_frame (rt : Runtime) pending (st : State) :
  same_frame st (resume_rest rt pending st).
Proof.
  destruct pending; [apply after_settle_frame | apply same_frame_refl].
Qed.

Lemma resume_telegram_frame (rt : Runtime) pending (st : State) :
  same_frame st (resume_telegram rt pending st).
Proof.
  destruct pending; [apply after_settle_frame | apply same_frame_refl].
Qed.

(** The sends leave the fields of the dispatcher and the store alone. *)
Lemma after_sends_frame (rt : Runtime) sms c (st : State) :
  same_frame st (after_sends rt sms c st).
Proof.
  unfold after_sends.
  assert (H1 : same_frame st
            (snd (if rest_dispatch c then begin_rest rt sms c st else (None, st)))).
  { destruct (rest_dispatch c); [apply begin_rest_frame | apply same_frame_refl]. }
  destruct (if rest_dispatch c then begin_rest rt sms c st else (None, st))
    as [rest st1]. simpl in H1.
  assert (H2 : same_frame st1
            (snd (if telegram_dispatch c
                  then (Some (telegram_request rt c sms),
                        record_effect (NetworkCall (telegram_request rt c sms)) st1)
                  else (None, st1)))).
  { destruct (telegram_dispatch c);
      [apply record_effect_frame | apply same_frame_refl]. }
  destruct (if telegram_dispatch c
            then (Some (telegram_request rt c sms),
                  record_effect (NetworkCall (telegram_request rt c sms)) st1)
            else (None, st1)) as [tele st2]. simpl in H2.
  apply (same_frame_trans _ _ _ H1). apply (same_frame_trans _ _ _ H2).
  destruct (telegram_settles_first rt).
  - eapply same_frame_trans;
      [apply resume_telegram_frame | apply resume_rest_frame].
  - eapply same_frame_trans;
      [apply resume_rest_frame | apply resume_telegram_frame].
Qed.

(** [forwardSMS] on a running dispatcher: the sends, then the increment. *)
Lemma forwardSMS_run (rt : Runtime) (sms : SMSMessage) (c : ConfigData)
    (st : State) :
  isRunning st = true -> config st = Some c ->
  forwardSMS rt sms st
  = (Normal tt, snd (incrementSMSCount (after_sends rt sms c st))).
Proof.
  intros Hrun Hc. unfold forwardSMS. rewrite Hrun, Hc.
  unfold after_sends, try_catch, mbind, M_bind.
  assert (Hrest :
    (if rest_dispatch c then settled (forwardToRestAPI_begin rt sms) None
     else mret None) st
    = (Normal (fst (if rest_dispatch c then begin_rest rt sms c st else (None, st))),
       snd (if rest_dispatch c then begin_rest rt sms c st else (None, st)))).
  { destruct (rest_dispatch c); [|reflexivity].
    unfold settled, try_catch. rewrite (begin_rest_run rt sms c st Hc).
    reflexivity. }
  rewrite Hrest. clear Hrest.
  assert (Hc1 : config (snd (if rest_dispatch c then begin_rest rt sms c st
                             else (None, st))) = Some c).
  { destruct (rest_dispatch c); [|exact Hc].
    destruct (begin_rest_frame rt sms c st) as (_ & H & _). congruence. }
  destruct (if rest_dispatch c then begin_rest rt sms c st else (None, st))
    as [rest st1]. simpl in Hc1. cbn [fst snd].
  assert (Htele :
    (if telegram_dispatch c then settled (forwardToTelegram_begin rt sms) None
     else mret None) st1
    = (if telegram_dispatch c
       then (Normal (Some (telegram_request rt c sms)),
             record_effect (NetworkCall (telegram_request rt c sms)) st1)
       else (Normal None, st1))).
  { destruct (telegram_dispatch c); [|reflexivity].
    unfold settled, try_catch. rewrite (begin_telegram_run rt sms c st1 Hc1).
    reflexivity. }
  rewrite Htele. clear Htele.
  assert (Hres : forall (first : bool) rest tele st2,
    (if first
     then resume_with (forwardToTelegram_resume rt) tele;;
          resume_with (forwardToRestAPI_resume rt) rest
     else resume_with (forwardToRestAPI_resume rt) rest;;
          resume_with (forwardToTelegram_resume rt) tele) st2
    = (Normal tt,
       if first then resume_rest rt rest (resume_telegram rt tele st2)
       else resume_telegram rt tele (resume_rest rt rest st2))).
  { clear. intros first rest tele st2.
    assert (Hr : forall p s, resume_with (forwardToRestAPI_resume rt) p s
                             = (Normal tt, resume_rest rt p s)).
    { intros [r|] s; [|reflexivity]. unfold resume_with, settled, try_catch.
      rewrite resume_rest_run. reflexivity. }
    assert (Ht : forall p s, resume_with (forwardToTelegram_resume rt) p s
                             = (Normal tt, resume_telegram rt p s)).
    { intros [r|] s; [|reflexivity]. unfold resume_with, settled, try_catch.
      rewrite resume_telegram_run. reflexivity. }
    destruct first; unfold mbind, M_bind.
    - rewrite Ht, Hr. reflexivity.
    - rewrite Hr, Ht. reflexivity. }
  destruct (telegram_dispatch c); unfold mbind, M_bind in Hres |- *;
    rewrite Hres;
    match goal with
    | |- context [incrementSMSCount ?s] =>
        pose proof (incrementSMSCount_normal s) as Hn;
        destruct (incrementSMSCount s) as [[[]|e] s']; simpl in Hn;
        try discriminate; reflexivity
    end.
Qed.

(** ** The counter *)

Lemma Number_toString_nonempty (z : Z) : Number_toString (Num z) <> [].
Proof.
  unfold Number_toString. destruct (z <? 0)%Z; [discriminate|].
  apply to_digits_nonempty.
Qed.

Lemma or_default_nonempty (s d : str) : s <> [] -> or_default (Some s) d = s.
Proof. destruct s; [congruence | reflexivity]. Qed.

(** With a working store, the increment adds one to a counter whose value
    is below [2^53] in magnitude. *)
Lemma stored_count_incremented (st : State) (n : Z) :
  storage_works 2 st = true ->
  stored_count st = Num n -> (Z.abs n < safe_bound)%Z ->
  stored_count (snd (incrementSMSCount st)) = Num (n + 1).
Proof.
  intros Hw Hn Hb. unfold stored_count in *.
  rewrite (incrementSMSCount_works st Hw), Hn, lookup_insert_eq.
  cbn [add1]. rewrite or_default_nonempty by apply Number_toString_nonempty.
  rewrite parseInt_Number_toString.
  assert (Hr : round_double (n + 1) = (n + 1)%Z)
    by (apply round_double_safe; lia).
  rewrite !Hr. reflexivity.
Qed.

(** ** The trace *)

Lemma delivery_log_app (a b : list Effect) :
  delivery_log (a ++ b) = delivery_log a ++ delivery_log b.
Proof. apply omap_app. Qed.

Lemma network_calls_app (a b : list Effect) :
  network_calls (a ++ b) = network_calls a ++ network_calls b.
Proof. apply omap_app. Qed.

Lemma delivery_log_deliveries (ev : ErrorEvent) (ls : list ErrorListener) :
  delivery_log (deliveries ev ls) = fan_out ev ls.
Proof. induction ls as [|l ls IH]; simpl; [reflexivity | f_equal; exact IH]. Qed.

Lemma network_calls_deliveries (ev : ErrorEvent) (ls : list ErrorListener) :
  network_calls (deliveries ev ls) = [].
Proof. induction ls as [|l ls IH]; simpl; [reflexivity | exact IH]. Qed.

Lemma new_effects_app (st st' : State) (tr : list Effect) :
  trace st' = trace st ++ tr -> new_effects st st' = tr.
Proof. intros H. unfold new_effects. rewrite H. apply drop_app_length. Qed.

Lemma delivery_summary_app (a b : list Effect) :
  delivery_summary (a ++ b) = delivery_summary a ++ delivery_summary b.
Proof. unfold delivery_summary. rewrite delivery_log_app. apply map_app. Qed.

Lemma delivery_summary_deliveries (ev : ErrorEvent) (ls : list ErrorListener) :
  delivery_summary (deliveries ev ls) = notified ls (type ev, message ev).
Proof.
  unfold delivery_summary, notified. rewrite delivery_log_deliveries.
  unfold fan_out. rewrite map_map. reflexivity.
Qed.

(** What the sends of one [forwardSMS] add to the trace. *)
Lemma after_sends_trace (rt : Runtime) (sms : SMSMessage) (c : ConfigData)
    (st : State) :
  exists tr,
    trace (after_sends rt sms c st) = trace st ++ tr
    /\ network_calls tr = requested rt sms c st
    /\ delivery_summary tr
       = flat_map (notified (errorListeners st)) (reported rt sms c st).
Proof.
  unfold after_sends, requested, reported, rest_report, telegram_report,
    begin_rest, resume_rest, resume_telegram, after_settle.
  destruct (rest_dispatch c), (telegram_dispatch c),
    (telegram_settles_first rt);
    try destruct (JSON_parse rt (restApiHeaders c)) as [h|e0];
    try destruct (rest_settle rt _) as [[]|e1];
    try destruct (telegram_settle rt _) as [[]|e2];
    cbn -[lit deliveries];
    (eexists; split;
     [ first [ symmetry; apply app_nil_r
             | rewrite <- ?app_assoc; reflexivity ]
     | rewrite ?network_calls_app, ?delivery_summary_app,
         ?network_calls_deliveries, ?delivery_summary_deliveries;
       cbn -[lit deliveries]; rewrite ?app_nil_r; split; reflexivity ]).
Qed.

(** ** The dispatch guards and the validity invariant *)

Lemma trim_nonempty_nonempty (s : str) : trim s <> [] -> s <> [].
Proof. intros H ->. apply H. reflexivity. Qed.

Lemma rest_active_dispatch (c : ConfigData) :
  rest_active c -> rest_dispatch c = true.
Proof.
  intros [He Hu]. unfold rest_dispatch. rewrite He. simpl.
  apply negb_true_iff, is_empty_false_iff, trim_nonempty_nonempty, Hu.
Qed.

Lemma telegram_active_dispatch (c : ConfigData) :
  telegram_active c -> telegram_dispatch c = true.
Proof.
  intros (He & Ht & _). unfold telegram_dispatch. rewrite He. simpl.
  apply negb_true_iff, is_empty_false_iff, trim_nonempty_nonempty, Ht.
Qed.

Lemma rest_dispatch_iff (c : ConfigData) :
  rest_dispatch c = true <-> restApiEnabled c = true /\ restApiUrl c <> [].
Proof.
  unfold rest_dispatch.
  rewrite andb_true_iff, negb_true_iff, is_empty_false_iff. reflexivity.
Qed.

Lemma telegram_dispatch_iff (c : ConfigData) :
  telegram_dispatch c = true
  <-> telegramEnabled c = true /\ telegramBotToken c <> [].
Proof.
  unfold telegram_dispatch.
  rewrite andb_true_iff, negb_true_iff, is_empty_false_iff. reflexivity.
Qed.

(** The two sends never issue the same request: the bodies differ. *)
Lemma rest_request_not_telegram (rt : Runtime) (c : ConfigData)
    (sms : SMSMessage) (headers : JSON) (receivedAt : str) :
  rest_request c sms headers receivedAt <> telegram_request rt c sms.
Proof.
  intros H. apply (f_equal req_body) in H.
  unfold rest_request, telegram_request in H. cbn [req_body] in H.
  injection H as Hkey _. vm_compute in Hkey. discriminate.
Qed.

(** What [forwardSMS] on a running dispatcher leaves behind: the trace
    grown by the sends, the store after the increment. *)
Lemma forwardSMS_effects (rt : Runtime) (sms : SMSMessage) (c : ConfigData)
    (st : State) :
  isRunning st = true -> config st = Some c ->
  exists st',
    forwardSMS rt sms st = (Normal tt, st')
    /\ network_calls (new_effects st st') = requested rt sms c st
    /\ delivery_summary (new_effects st st')
       = flat_map (notified (errorListeners st)) (reported rt sms c st)
    /\ (forall n, storage_works 2 st = true -> stored_count st = Num n ->
                  (Z.abs n < safe_bound)%Z -> stored_count st' = Num (n + 1))
    /\ isRunning st' = true /\ config st' = Some c
    /\ errorListeners st' = errorListeners st.
Proof.
  intros Hrun Hc. eexists. split; [apply (forwardSMS_run rt sms c st Hrun Hc)|].
  destruct (after_sends_trace rt sms c st) as (tr & Htr & Hnet & Hdel).
  destruct (after_sends_frame rt sms c st) as (F1 & F2 & F3 & F4 & F5).
  set (s1 := after_sends rt sms c st) in *.
  destruct (incrementSMSCount_frame s1) as (I1 & I2 & I3 & I4 & I5).
  cbv zeta in I1, I2, I3, I4, I5.
  assert (Hnew : new_effects st (snd (incrementSMSCount s1)) = tr).
  { apply new_effects_app. rewrite I5. exact Htr. }
  rewrite Hnew. repeat split; try congruence.
  intros n Hw Hn Hb. apply stored_count_incremented; [| |exact Hb].
  - unfold storage_works in *. rewrite F5. exact Hw.
  - unfold stored_count in *. rewrite F4. exact Hn.
Qed.

(** * The dispatcher's contract *)

(** ** Forwarding while stopped *)

(** C5.  If the dispatcher is not running, or no configuration is loaded,
    [forwardSMS] completes normally and leaves the whole state as it was:
    the trace (no network call, no error event), the store (the counter)
    and the fields of the dispatcher. *)
Theorem forwardSMS_not_running_noop (rt : Runtime) (sms : SMSMessage)
    (st : State) :
  isRunning st = false \/ config st = None ->
  forwardSMS rt sms st = (Normal tt, st).
Proof.
  intros [H | H]; unfold forwardSMS; rewrite H.
  - reflexivity.
  - destruct (isRunning st); reflexivity.
Qed.

Lemma forwardSMS_not_running_noop_witness :
  (isRunning (stopped_over sample_config_text) = false
   \/ config (stopped_over sample_config_text) = None)
  /\ forwardSMS sample_rt sample_sms (stopped_over sample_config_text)
     = (Normal tt, stopped_over sample_config_text).
Proof.
  split.
  - left. reflexivity.
  - apply (forwardSMS_not_running_noop sample_rt sample_sms
             (stopped_over sample_config_text)).
    left. reflexivity.
Defined.

(** ** Forwarding with no destination *)

Lemma after_sends_no_dispatch (rt : Runtime) (sms : SMSMessage)
    (c : ConfigData) (st : State) :
  rest_dispatch c = false -> telegram_dispatch c = false ->
  after_sends rt sms c st = st.
Proof.
  intros Hr Ht. unfold after_sends. rewrite Hr, Ht.
  destruct (telegram_settles_first rt); reflexivity.
Qed.

(** C10, as the code has it.  On a running dispatcher whose configuration
    passes neither dispatch check (REST disabled or URL empty, Telegram
    disabled or bot token empty), [forwardSMS] completes normally and adds
    nothing to the trace (no send, no error event).  It adds one to the
    persisted counter when the read and the write of the store succeed and
    the counter is read as a number [n] below [2^53] in magnitude; when the
    read or the write fails, the store is left as it was. *)
Theorem forwardSMS_no_destination (rt : Runtime) (sms : SMSMessage)
    (c : ConfigData) (st : State) :
  isRunning st = true -> config st = Some c ->
  (restApiEnabled c = false \/ restApiUrl c = []) ->
  (telegramEnabled c = false \/ telegramBotToken c = []) ->
  exists st',
    forwardSMS rt sms st = (Normal tt, st')
    /\ trace st' = trace st
    /\ (forall n : Z,
          storage_works 2 st = true ->
          stored_count st = Num n -> (Z.abs n < safe_bound)%Z ->
          stored_count st' = Num (n + 1))
    /\ (storage_works 2 st = false -> storage st' = storage st).
Proof.
  intros Hrun Hc Hrest Htele.
  assert (Hr : rest_dispatch c = false).
  { unfold rest_dispatch. destruct Hrest as [-> | ->];
      [reflexivity | apply andb_false_r]. }
  assert (Ht : telegram_dispatch c = false).
  { unfold telegram_dispatch. destruct Htele as [-> | ->];
      [reflexivity | apply andb_false_r]. }
  exists (snd (incrementSMSCount st)). split; [|split; [|split]].
  - rewrite (forwardSMS_run rt sms c st Hrun Hc).
    rewrite (after_sends_no_dispatch rt sms c st Hr Ht). reflexivity.
  - apply incrementSMSCount_frame.
  - intros n Hw Hn Hb. apply stored_count_incremented; assumption.
  - intros Hw. unfold storage_works in Hw.
    unfold incrementSMSCount, try_catch, mbind, M_bind.
    rewrite getItem_run.
    destruct (faults st) as [|[e|] fs] eqn:Ef; try discriminate;
      cbv beta iota; [reflexivity|].
    rewrite setItem_run. cbn [faults set_faults tl].
    destruct fs as [|[e|] fs']; try discriminate. reflexivity.
Qed.

Lemma forwardSMS_no_destination_witness :
  exists st',
    forwardSMS sample_rt sample_sms (running_with off_config) = (Normal tt, st')
    /\ trace st' = trace (running_with off_config)
    /\ stored_count st' = Num 42.
Proof.
  destruct (forwardSMS_no_destination sample_rt sample_sms off_config
              (running_with off_config))
    as (st' & Hrun & Htrace & Hcount & _).
  - reflexivity.
  - reflexivity.
  - left. reflexivity.
  - left. reflexivity.
  - exists st'. split; [exact Hrun|]. split; [exact Htrace|].
    apply (Hcount 41%Z).
    + reflexivity.
    + vm_compute. reflexivity.
    + vm_compute. reflexivity.
Defined.

(** C10 as stated fails without a working store and a counter that is a
    number below [2^53].  With both destinations off and the dispatcher
    running: when the read of the store fails the counter stays 41; a
    counter that is no number stays [NaN]; a counter that has reached
    [2^53] stays there. *)
Lemma forwardSMS_no_destination_counterexample :
  (isRunning running_off_failing_store = true
   /\ config running_off_failing_store = Some off_config
   /\ restApiEnabled off_config = false /\ telegramEnabled off_config = false)
  /\ (stored_count running_off_failing_store = Num 41
      /\ fst (forwardSMS sample_rt sample_sms running_off_failing_store)
         = Normal tt
      /\ stored_count (snd (forwardSMS sample_rt sample_sms
                              running_off_failing_store))
         = Num 41)
  /\ (isRunning running_corrupt_count = true
      /\ config running_corrupt_count = Some off_config
      /\ stored_count running_corrupt_count = NaN
      /\ stored_count (snd (forwardSMS sample_rt sample_sms
                              running_corrupt_count))
         = NaN)
  /\ (isRunning running_off_counter_at_bound = true
      /\ config running_off_counter_at_bound = Some off_config
      /\ stored_count running_off_counter_at_bound = Num 9007199254740992
      /\ stored_count (snd (forwardSMS sample_rt sample_sms
                              running_off_counter_at_bound))
         = Num 9007199254740992).
Proof. repeat split; vm_compute; reflexivity. Qed.

(** ** Which sends are started *)

(** C4, as the code has it.  On a running dispatcher [forwardSMS] issues
    exactly the requests of [requested]: the REST request when REST is
    enabled and the URL is not the empty string (and the headers parse),
    then the Telegram request when Telegram is enabled and the bot token is
    not the empty string.  Neither guard trims, and the chat id is not
    looked at. *)
Theorem forwardSMS_requests (rt : Runtime) (sms : SMSMessage)
    (c : ConfigData) (st : State) :
  isRunning st = true -> config st = Some c ->
  exists st',
    forwardSMS rt sms st = (Normal tt, st')
    /\ network_calls (new_effects st st') = requested rt sms c st
    /\ (telegram_request rt c sms ∈ network_calls (new_effects st st')
        <-> telegramEnabled c = true /\ telegramBotToken c <> [])
    /\ (forall headers,
          JSON_parse rt (restApiHeaders c) = Normal headers ->
          (rest_request c sms headers (Date_toISOString rt (clock st))
             ∈ network_calls (new_effects st st')
           <-> restApiEnabled c = true /\ restApiUrl c <> [])).
Proof.
  intros Hrun Hc.
  destruct (forwardSMS_effects rt sms c st Hrun Hc) as (st' & Hf & Hnet & _).
  exists st'. split; [exact Hf|]. split; [exact Hnet|].
  rewrite Hnet. unfold requested. split.
  - rewrite <- telegram_dispatch_iff. rewrite elem_of_app. split.
    + intros [H | H].
      * destruct (rest_dispatch c); [|apply elem_of_nil in H; contradiction].
        destruct (JSON_parse rt (restApiHeaders c)) as [h|e];
          [|apply elem_of_nil in H; contradiction].
        apply list_elem_of_singleton in H. symmetry in H.
        apply rest_request_not_telegram in H. contradiction.
      * destruct (telegram_dispatch c);
          [reflexivity | apply elem_of_nil in H; contradiction].
    + intros ->. right. apply list_elem_of_here.
  - intros headers Hp. rewrite Hp. rewrite <- rest_dispatch_iff.
    rewrite elem_of_app. split.
    + intros [H | H].
      * destruct (rest_dispatch c);
          [reflexivity | apply elem_of_nil in H; contradiction].
      * destruct (telegram_dispatch c);
          [|apply elem_of_nil in H; contradiction].
        apply list_elem_of_singleton in H.
        apply rest_request_not_telegram in H. contradiction.
    + intros ->. left. apply list_elem_of_here.
Qed.

Lemma forwardSMS_requests_witness :
  exists st',
    forwardSMS sample_rt sample_sms (running_with both_config) = (Normal tt, st')
    /\ network_calls (new_effects (running_with both_config) st')
       = requested sample_rt sample_sms both_config (running_with both_config)
    /\ (telegram_request sample_rt both_config sample_sms
          ∈ network_calls (new_effects (running_with both_config) st')
        <-> telegramEnabled both_config = true
            /\ telegramBotToken both_config <> [])
    /\ (forall headers,
          JSON_parse sample_rt (restApiHeaders both_config) = Normal headers ->
          (rest_request both_config sample_sms headers
             (Date_toISOString sample_rt (clock (running_with both_config)))
             ∈ network_calls (new_effects (running_with both_config) st')
           <-> restApiEnabled both_config = true
               /\ restApiUrl both_config <> [])).
Proof.
  apply (forwardSMS_requests sample_rt sample_sms both_config
           (running_with both_config)); reflexivity.
Defined.

(** C4 as stated fails: with a URL that is one space and with a bot token
    but no chat id, neither destination is active under the validity
    invariant, and both requests are issued. *)
Lemma forwardSMS_requests_inactive_destinations :
  isRunning (running_with blank_config) = true
  /\ config (running_with blank_config) = Some blank_config
  /\ ~ rest_active blank_config
  /\ ~ telegram_active blank_config
  /\ map req_url
       (network_calls
          (new_effects (running_with blank_config)
             (snd (forwardSMS sample_rt sample_sms (running_with blank_config)))))
     = [ lit " "; lit "https://api.telegram.org/bot123:abc/sendMessage" ].
Proof.
  split; [reflexivity|]. split; [reflexivity|]. split; [|split].
  - intros [_ H]. apply H. reflexivity.
  - intros (_ & _ & H). apply H. reflexivity.
  - vm_compute. reflexivity.
Qed.

(** ** Both sends failing *)

Lemma ErrorType_tag_not_rest_api (t : ErrorType) :
  ErrorType_tag t <> lit "rest-api".
Proof. destruct t; vm_compute; discriminate. Qed.

(** C1, as the code has it.  On a running dispatcher with both destinations
    active and both sends failing, [forwardSMS] completes normally, adds one
    to the persisted counter, and reports exactly two errors, each to every
    registered listener in turn: one of type [restapi] (the string
    ["restapi"]) and one of type [telegram], in either order.  The counter
    is read as a number [n] below [2^53] in magnitude, and the read and the
    write of the store succeed. *)
Theorem forwardSMS_both_fail (rt : Runtime) (sms : SMSMessage)
    (c : ConfigData) (st : State) (n : Z) :
  isRunning st = true -> config st = Some c ->
  rest_active c -> telegram_active c ->
  rest_send_fails rt c sms st = true -> telegram_send_fails rt c sms = true ->
  storage_works 2 st = true ->
  stored_count st = Num n -> (Z.abs n < safe_bound)%Z ->
  exists st' m1 m2,
    forwardSMS rt sms st = (Normal tt, st')
    /\ stored_count st' = Num (n + 1)
    /\ (delivery_summary (new_effects st st')
        = notified (errorListeners st) (restapi, m1)
          ++ notified (errorListeners st) (telegram, m2)
        \/ delivery_summary (new_effects st st')
           = notified (errorListeners st) (telegram, m2)
             ++ notified (errorListeners st) (restapi, m1))
    /\ ErrorType_tag restapi = lit "restapi"
    /\ ErrorType_tag telegram = lit "telegram".
Proof.
  intros Hrun Hc Hra Hta Hrf Htf Hw Hn Hb.
  destruct (forwardSMS_effects rt sms c st Hrun Hc)
    as (st' & Hf & _ & Hdel & Hcount & _).
  pose proof (rest_active_dispatch c Hra) as Hrd.
  pose proof (telegram_active_dispatch c Hta) as Htd.
  unfold reported, rest_report, telegram_report in Hdel.
  rewrite Hrd, Htd in Hdel.
  unfold rest_send_fails in Hrf. unfold telegram_send_fails in Htf.
  destruct (telegram_settle rt (telegram_request rt c sms)) as [[]|e2];
    [discriminate|].
  assert (Hrest : exists m1,
    match JSON_parse rt (restApiHeaders c) with
    | Normal headers =>
        match rest_settle rt (rest_request c sms headers
                                (Date_toISOString rt (clock st))) with
        | Normal _ => []
        | Throw e => [(restapi, lit "Error forwarding to REST API: "
                                ++ errorMessage e)]
        end
    | Throw e => [(restapi, lit "Error forwarding to REST API: "
                            ++ errorMessage e)]
    end = [(restapi, m1)]).
  { destruct (JSON_parse rt (restApiHeaders c)) as [h|e0].
    - destruct (rest_settle rt _) as [[]|e1]; [discriminate|].
      eexists. reflexivity.
    - eexists. reflexivity. }
  destruct Hrest as (m1 & Hrest). rewrite Hrest in Hdel.
  exists st', m1, (lit "Error forwarding to Telegram: " ++ errorMessage e2).
  split; [exact Hf|]. split; [exact (Hcount n Hw Hn Hb)|].
  split; [|split; reflexivity].
  destruct (failed (JSON_parse rt (restApiHeaders c))
            || negb (telegram_settles_first rt));
    cbn [flat_map app] in Hdel; rewrite app_nil_r in Hdel;
    [left | right]; exact Hdel.
Qed.

Lemma forwardSMS_both_fail_witness :
  exists st' m1 m2,
    forwardSMS sample_rt sample_sms (running_with both_config) = (Normal tt, st')
    /\ stored_count st' = Num (41 + 1)
    /\ (delivery_summary (new_effects (running_with both_config) st')
        = notified (errorListeners (running_with both_config)) (restapi, m1)
          ++ notified (errorListeners (running_with both_config)) (telegram, m2)
        \/ delivery_summary (new_effects (running_with both_config) st')
           = notified (errorListeners (running_with both_config)) (telegram, m2)
             ++ notified (errorListeners (running_with both_config)) (restapi, m1))
    /\ ErrorType_tag restapi = lit "restapi"
    /\ ErrorType_tag telegram = lit "telegram".
Proof.
  apply (forwardSMS_both_fail sample_rt sample_sms both_config
           (running_with both_config) 41).
  - reflexivity.
  - reflexivity.
  - split; [reflexivity | vm_compute; discriminate].
  - split; [reflexivity | split; vm_compute; discriminate].
  - vm_compute. reflexivity.
  - vm_compute. reflexivity.
  - reflexivity.
  - vm_compute. reflexivity.
  - vm_compute. reflexivity.
Defined.

(** C1 as stated fails: in this run, where both destinations are active and
    both sends fail, the counter goes from 41 to 42 and each of the two
    listeners is called twice, but the categories delivered are ["restapi"]
    and ["telegram"]; no event has the category ["rest-api"]. *)
Lemma forwardSMS_both_fail_no_rest_api_category :
  isRunning (running_with both_config) = true
  /\ config (running_with both_config) = Some both_config
  /\ rest_active both_config /\ telegram_active both_config
  /\ rest_send_fails sample_rt both_config sample_sms
       (running_with both_config) = true
  /\ telegram_send_fails sample_rt both_config sample_sms = true
  /\ stored_count (running_with both_config) = Num 41
  /\ stored_count (snd (forwardSMS sample_rt sample_sms
                          (running_with both_config))) = Num 42
  /\ map (fun d => (fst (fst d), ErrorType_tag (snd (fst d))))
       (delivery_summary
          (new_effects (running_with both_config)
             (snd (forwardSMS sample_rt sample_sms (running_with both_config)))))
     = [ (7%nat, lit "restapi"); (8%nat, lit "restapi");
         (7%nat, lit "telegram"); (8%nat, lit "telegram") ]
  /\ ~ (exists d,
          d ∈ delivery_summary
                (new_effects (running_with both_config)
                   (snd (forwardSMS sample_rt sample_sms
                           (running_with both_config))))
          /\ ErrorType_tag (snd (fst d)) = lit "rest-api").
Proof.
  split; [reflexivity|]. split; [reflexivity|].
  split; [split; [reflexivity | vm_compute; discriminate]|].
  split; [split; [reflexivity | split; vm_compute; discriminate]|].
  split; [vm_compute; reflexivity|]. split; [vm_compute; reflexivity|].
  split; [vm_compute; reflexivity|]. split; [vm_compute; reflexivity|].
  split; [vm_compute; reflexivity|].
  intros (d & _ & Htag). exact (ErrorType_tag_not_rest_api _ Htag).
Qed.

(** ** Headers that do not parse *)

Lemma forwardToRestAPI_run (rt : Runtime) (sms : SMSMessage) (c : ConfigData)
    (st : State) :
  config st = Some c ->
  forwardToRestAPI rt sms st
  = (Normal tt,
     resume_rest rt (fst (begin_rest rt sms c st)) (snd (begin_rest rt sms c st))).
Proof.
  intros Hc. unfold forwardToRestAPI, mbind, M_bind.
  rewrite (begin_rest_run rt sms c st Hc).
  destruct (begin_rest rt sms c st) as [[request|] st1]; cbn [fst snd].
  - apply resume_rest_run.
  - reflexivity.
Qed.

(** C6, as the code has it.  When [JSON.parse] rejects the configured
    headers text, the REST send issues no request and reports one error of
    type [restapi] to every registered listener.  Inside [forwardSMS] the
    Telegram send is untouched by it: its request is issued if it passes its
    guard, and its own report, if any, follows. *)
Theorem forwardToRestAPI_unparsable_headers (rt : Runtime) (sms : SMSMessage)
    (c : ConfigData) (st : State) (e : Exn) :
  config st = Some c ->
  JSON_parse rt (restApiHeaders c) = Throw e ->
  let report :=
    (restapi, lit "Error forwarding to REST API: " ++ errorMessage e) in
  (exists st',
     forwardToRestAPI rt sms st = (Normal tt, st')
     /\ network_calls (new_effects st st') = []
     /\ delivery_summary (new_effects st st')
        = notified (errorListeners st) report)
  /\ (isRunning st = true -> rest_dispatch c = true ->
      exists st',
        forwardSMS rt sms st = (Normal tt, st')
        /\ network_calls (new_effects st st')
           = (if telegram_dispatch c then [telegram_request rt c sms] else [])
        /\ delivery_summary (new_effects st st')
           = notified (errorListeners st) report
             ++ flat_map (notified (errorListeners st))
                         (telegram_report rt sms c)).
Proof.
  intros Hc Hp report. split.
  - eexists. split; [apply (forwardToRestAPI_run rt sms c st Hc)|].
    unfold begin_rest. rewrite Hp. cbn [fst snd resume_rest].
    rewrite (new_effects_app st _
               (deliveries {| type := restapi;
                              message := snd report;
                              timestamp := Date_toISOString rt (clock st) |}
                           (errorListeners st))) by reflexivity.
    rewrite network_calls_deliveries, delivery_summary_deliveries.
    split; reflexivity.
  - intros Hrun Hrd.
    destruct (forwardSMS_effects rt sms c st Hrun Hc)
      as (st' & Hf & Hnet & Hdel & _).
    exists st'. split; [exact Hf|].
    unfold requested in Hnet. unfold reported, rest_report in Hdel.
    rewrite Hrd, Hp in Hnet, Hdel. cbn [failed orb app] in Hnet, Hdel.
    split; [exact Hnet|].
    rewrite Hdel. cbn [flat_map]. reflexivity.
Qed.

Lemma forwardToRestAPI_unparsable_headers_witness :
  exists st',
    forwardToRestAPI sample_rt sample_sms (running_with bad_headers_config)
    = (Normal tt, st')
    /\ network_calls (new_effects (running_with bad_headers_config) st') = []
    /\ delivery_summary (new_effects (running_with bad_headers_config) st')
       = notified (errorListeners (running_with bad_headers_config))
           (restapi,
            lit "Error forwarding to REST API: JSON Parse error: Unexpected token").
Proof.
  apply (forwardToRestAPI_unparsable_headers sample_rt sample_sms
           bad_headers_config (running_with bad_headers_config)
           (Error (lit "JSON Parse error: Unexpected token"))).
  - reflexivity.
  - vm_compute. reflexivity.
Defined.

(** C6 as stated fails twice.  With the headers text ["{invalid json"] the
    events delivered have the category ["restapi"], not ["rest-api"].  And
    the headers text ["[]"] is JSON but no key/value mapping: the send goes
    on to issue its request, and reports nothing when the answer is 200. *)
Lemma forwardToRestAPI_headers_counterexample :
  restApiHeaders bad_headers_config = lit "{invalid json"
  /\ failed (JSON_parse sample_rt (restApiHeaders bad_headers_config)) = true
  /\ map (fun d => (fst (fst d), ErrorType_tag (snd (fst d))))
       (delivery_summary
          (new_effects (running_with bad_headers_config)
             (snd (forwardToRestAPI sample_rt sample_sms
                     (running_with bad_headers_config)))))
     = [ (7%nat, lit "restapi"); (8%nat, lit "restapi") ]
  /\ lit "restapi" <> lit "rest-api"
  /\ JSON_parse sample_rt (restApiHeaders array_headers_config)
     = Normal (JArr [])
  /\ map req_url
       (network_calls
          (new_effects (running_with array_headers_config)
             (snd (forwardToRestAPI sample_rt sample_sms
                     (running_with array_headers_config)))))
     = [ lit "https://example.test/sms" ]
  /\ delivery_summary
       (new_effects (running_with array_headers_config)
          (snd (forwardToRestAPI sample_rt sample_sms
                  (running_with array_headers_config))))
     = [].
Proof.
  repeat split; try (vm_compute; reflexivity).
  vm_compute. discriminate.
Qed.

(** ** The Telegram send *)






(** ** Loading and validating the configuration *)

Lemma loadConfig_run (rt : Runtime) (st : State) :
  loadConfig rt st
  = match faults st with
    | Some e :: fs => (Throw e, set_faults fs st)
    | _ =>
        let st0 := set_faults (tl (faults st)) st in
        match storage st !! lit "smsForwarderConfig" with
        | Some (c :: r) =>
            match parse_config rt (c :: r) with
            | Normal loaded => (Normal tt, set_config (Some loaded) st0)
            | Throw e => (Throw e, st0)
            end
        | _ => (Normal tt, set_config (Some default_config) st0)
        end
    end.
Proof.
  unfold loadConfig, try_catch, mbind, M_bind. rewrite getItem_run.
  destruct (faults st) as [|[e|] fs]; cbv beta iota zeta; try reflexivity;
    (destruct (storage st !! lit "smsForwarderConfig") as [[|c r]|];
     try reflexivity;
     unfold liftC; destruct (parse_config rt (c :: r)); reflexivity).
Qed.

(** Loading touches the configuration and uses up one store operation. *)
Lemma loadConfig_frame (rt : Runtime) (st : State) :
  let st1 := snd (loadConfig rt st) in
  isRunning st1 = isRunning st /\ storage st1 = storage st
  /\ errorListeners st1 = errorListeners st /\ trace st1 = trace st
  /\ faults st1 = tl (faults st)
  /\ (failed (fst (loadConfig rt st)) = true -> config st1 = config st).
Proof.
  rewrite loadConfig_run.
  destruct (faults st) as [|[e|] fs] eqn:Ef; cbv zeta;
    try (cbn; rewrite ?Ef; repeat split; reflexivity);
    (destruct (storage st !! lit "smsForwarderConfig") as [[|c r]|];
     [ | destruct (parse_config rt (c :: r)) | ];
     cbn; rewrite ?Ef; repeat split; try reflexivity; discriminate).
Qed.

Lemma restApiValid_iff (c : ConfigData) :
  restApiValid c = true <-> rest_active c.
Proof.
  unfold restApiValid, rest_active.
  rewrite !andb_true_iff, !negb_true_iff, !is_empty_false_iff. split.
  - intros [[He _] Ht]. auto.
  - intros [He Ht]. auto using trim_nonempty_nonempty.
Qed.

Lemma telegramValid_iff (c : ConfigData) :
  telegramValid c = true <-> telegram_active c.
Proof.
  unfold telegramValid, telegram_active.
  rewrite !andb_true_iff, !negb_true_iff, !is_empty_false_iff. split.
  - intros [[[[He _] Ht] _] Hc]. auto.
  - intros (He & Ht & Hc). auto 6 using trim_nonempty_nonempty.
Qed.

Lemma isConfigurationValidSync_iff (this : State) :
  isConfigurationValidSync this = true
  <-> exists c, config this = Some c /\ (rest_active c \/ telegram_active c).
Proof.
  unfold isConfigurationValidSync. destruct (config this) as [c|].
  - rewrite orb_true_iff, restApiValid_iff, telegramValid_iff. split.
    + intros H. exists c. auto.
    + intros (c' & Hc & H). injection Hc as <-. exact H.
  - split; [discriminate | intros (c & Hc & _); discriminate].
Qed.

Lemma isConfigurationValid_run (rt : Runtime) (st : State) :
  isConfigurationValid rt st
  = match loadConfig rt st with
    | (Normal _, st1) => (Normal (isConfigurationValidSync st1), st1)
    | (Throw _, st1) => (Normal false, st1)
    end.
Proof.
  unfold isConfigurationValid, try_catch, mbind, M_bind.
  destruct (loadConfig rt st) as [[[]|e] st1]; reflexivity.
Qed.

(** C2.  [isConfigurationValid] never throws and does not change the
    running flag or the store.  It answers [true] exactly when the stored
    configuration could be loaded and, in the configuration loaded, REST is
    enabled with a URL that is non-empty after trimming, or Telegram is
    enabled with a bot token and a chat id that are non-empty after
    trimming.  Without a loaded configuration the synchronous check answers
    [false]. *)
Theorem isConfigurationValid_iff (rt : Runtime) (st : State) :
  exists b st',
    isConfigurationValid rt st = (Normal b, st')
    /\ isRunning st' = isRunning st /\ storage st' = storage st
    /\ (b = true
        <-> exists st1 c,
              loadConfig rt st = (Normal tt, st1)
              /\ config st1 = Some c
              /\ (restApiEnabled c = true /\ trim (restApiUrl c) <> []
                  \/ telegramEnabled c = true
                     /\ trim (telegramBotToken c) <> []
                     /\ trim (telegramChatId c) <> []))
    /\ (failed (fst (loadConfig rt st)) = true -> b = false)
    /\ (forall this, config this = None -> isConfigurationValidSync this = false).
Proof.
  rewrite isConfigurationValid_run.
  destruct (loadConfig_frame rt st) as (F1 & F2 & _).
  destruct (loadConfig rt st) as [[[]|e] st1]; cbn [fst snd] in *.
  - exists (isConfigurationValidSync st1), st1.
    split; [reflexivity|]. split; [exact F1|]. split; [exact F2|].
    split; [|split].
    + rewrite isConfigurationValidSync_iff. split.
      * intros (c & Hc & H). exists st1, c. auto.
      * intros (st2 & c & Heq & Hc & H). injection Heq as <-. exists c. auto.
    + discriminate.
    + intros this Hn. unfold isConfigurationValidSync. rewrite Hn. reflexivity.
  - exists false, st1.
    split; [reflexivity|]. split; [exact F1|]. split; [exact F2|].
    split; [|split].
    + split; [discriminate | intros (st2 & c & Heq & _); discriminate].
    + reflexivity.
    + intros this Hn. unfold isConfigurationValidSync. rewrite Hn. reflexivity.
Qed.

(** ** Starting *)

Lemma start_run (rt : Runtime) (st : State) :
  start rt st
  = match loadConfig rt st with
    | (Normal _, st1) =>
        if isConfigurationValidSync st1
        then AsyncStorage_setItem (lit "smsForwarderRunning") (lit "true")
               (set_isRunning true st1)
        else (Normal tt, st1)
    | (Throw e, st1) => (Throw e, st1)
    end.
Proof.
  unfold start, try_catch, mbind, M_bind, gets, modify, throw.
  destruct (loadConfig rt st) as [[[]|e] st1]; [|reflexivity].
  destruct (isConfigurationValidSync st1); cbn [negb]; [|reflexivity].
  destruct (AsyncStorage_setItem _ _ _) as [[[]|e] st2]; reflexivity.
Qed.




(** ** Stopping *)

Lemma stop_run (st : State) :
  stop st
  = match faults st with
    | Some e :: fs => (Throw e, set_faults fs (set_isRunning false st))
    | _ => (Normal tt,
            set_storage (<[lit "smsForwarderRunning" := lit "false"]> (storage st))
                        (set_faults (tl (faults st)) (set_isRunning false st)))
    end.
Proof.
  unfold stop, mbind, M_bind, modify. rewrite setItem_run.
  cbn [faults set_isRunning storage]. reflexivity.
Qed.

(** C8, as the code has it.  From every state, [stop] sets the running flag
    to false, so [isServiceRunning] is false afterwards, whatever the store
    does.  When the write to the store succeeds it returns normally and
    ["false"] is stored under the running-flag key; when the write fails it
    throws the error of the write and the store keeps what it held.  With a
    store that accepts both writes, the dispatcher and the store after two
    calls equal those after one (the states are compared without the record
    of which store operations are yet to come). *)
Theorem stop_idempotent (st : State) :
  isServiceRunning (snd (stop st)) = false
  /\ isServiceRunning (snd (stop (snd (stop st)))) = false
  /\ (storage_works 1 st = true ->
      fst (stop st) = Normal tt
      /\ storage (snd (stop st))
         = <[lit "smsForwarderRunning" := lit "false"]> (storage st))
  /\ (storage_works 2 st = true ->
      set_faults [] (snd (stop (snd (stop st)))) = set_faults [] (snd (stop st)))
  /\ (storage_works 1 st = false ->
      exists e, fst (stop st) = Throw e /\ storage (snd (stop st)) = storage st).
Proof.
  assert (Hflag : forall s, isServiceRunning (snd (stop s)) = false).
  { intros s. rewrite stop_run. destruct (faults s) as [|[e|] fs]; reflexivity. }
  split; [apply Hflag|]. split; [apply Hflag|]. split; [|split].
  - intros Hw. rewrite stop_run. unfold storage_works in Hw.
    destruct (faults st) as [|[e|] fs]; try discriminate; split; reflexivity.
  - intros Hw. unfold storage_works in Hw. rewrite (stop_run st).
    destruct (faults st) as [|[e|] fs] eqn:Ef; try discriminate;
      cbn [snd]; rewrite stop_run; cbn [faults set_storage set_faults tl].
    + unfold set_faults, set_storage, set_isRunning. cbn.
      rewrite insert_insert_eq. reflexivity.
    + destruct fs as [|[e|] fs']; try discriminate;
        unfold set_faults, set_storage, set_isRunning; cbn;
        rewrite insert_insert_eq; reflexivity.
  - intros Hw. rewrite stop_run. unfold storage_works in Hw.
    destruct (faults st) as [|[e|] fs]; try discriminate.
    exists e. split; reflexivity.
Qed.

Lemma stop_idempotent_witness :
  fst (stop (running_with both_config)) = Normal tt
  /\ storage (snd (stop (running_with both_config)))
     = <[lit "smsForwarderRunning" := lit "false"]>
         (storage (running_with both_config))
  /\ set_faults [] (snd (stop (snd (stop (running_with both_config)))))
     = set_faults [] (snd (stop (running_with both_config))).
Proof.
  destruct (stop_idempotent (running_with both_config))
    as (_ & _ & H1 & H2 & _).
  destruct (H1 eq_refl) as [Hr Hs].
  split; [exact Hr|]. split; [exact Hs|]. exact (H2 eq_refl).
Defined.

(** C8 as stated fails when the write fails.  Over a store that holds
    ["true"] and refuses the next write, [stop] throws and ["false"] is not
    persisted: the running flag is false while the store still says
    ["true"].  A second [stop], whose write succeeds, then stores ["false"]:
    two calls do not leave what one call leaves. *)
Lemma stop_counterexample :
  storage running_failing_store !! lit "smsForwarderRunning" = Some (lit "true")
  /\ fst (stop running_failing_store) = Throw (Error (lit "disk full"))
  /\ isServiceRunning (snd (stop running_failing_store)) = false
  /\ storage (snd (stop running_failing_store)) !! lit "smsForwarderRunning"
     = Some (lit "true")
  /\ storage (snd (stop (snd (stop running_failing_store))))
       !! lit "smsForwarderRunning"
     = Some (lit "false").
Proof. repeat split; vm_compute; reflexivity. Qed.

(** ** Failing writes to the store *)

(** C9, as the code has it.  A failing write to the store never undoes the
    change of the running flag made before it, and is swallowed by the
    increment of the counter, hence by [forwardSMS], which always complete
    normally.  [stop] and [start] do not swallow it: [stop] ends by throwing
    the error of the write, with the running flag false, and [start], after
    loading a valid configuration, ends by throwing it, with the running
    flag true. *)
Theorem store_write_failure (rt : Runtime) (st : State) :
  fst (incrementSMSCount st) = Normal tt
  /\ (forall sms, fst (forwardSMS rt sms st) = Normal tt)
  /\ (forall e fs,
        faults st = Some e :: fs ->
        stop st = (Throw e, set_faults fs (set_isRunning false st))
        /\ isServiceRunning (snd (stop st)) = false)
  /\ (forall e fs st1,
        loadConfig rt st = (Normal tt, st1) ->
        isConfigurationValidSync st1 = true ->
        faults st1 = Some e :: fs ->
        start rt st = (Throw e, set_faults fs (set_isRunning true st1))
        /\ isServiceRunning (snd (start rt st)) = true).
Proof.
  split; [apply incrementSMSCount_normal|]. split; [|split].
  - intros sms. destruct (isRunning st) eqn:Hrun.
    + destruct (config st) as [c|] eqn:Hc.
      * rewrite (forwardSMS_run rt sms c st Hrun Hc). reflexivity.
      * unfold forwardSMS. rewrite Hrun, Hc. reflexivity.
    + unfold forwardSMS. rewrite Hrun. reflexivity.
  - intros e fs Hf. rewrite stop_run, Hf. split; reflexivity.
  - intros e fs st1 Hl Hv Hf. rewrite start_run, Hl, Hv, setItem_run.
    cbn [faults set_isRunning]. rewrite Hf. split; reflexivity.
Qed.

Lemma store_write_failure_witness :
  stop running_failing_store
  = (Throw (Error (lit "disk full")),
     set_faults [] (set_isRunning false running_failing_store))
  /\ isServiceRunning (snd (stop running_failing_store)) = false.
Proof.
  destruct (store_write_failure sample_rt running_failing_store)
    as (_ & _ & Hstop & _).
  apply (Hstop (Error (lit "disk full")) []). reflexivity.
Defined.

(** C9 as stated fails: a failing write is not swallowed by [stop], which
    throws it to its caller, nor by [start]. *)
Lemma store_write_failure_propagates :
  faults running_failing_store = [Some (Error (lit "disk full"))]
  /\ fst (stop running_failing_store) = Throw (Error (lit "disk full"))
  /\ fst (isConfigurationValid sample_rt
            (stopped_over_failing_write sample_config_text)) = Normal true
  /\ fst (start sample_rt (stopped_over_failing_write sample_config_text))
     = Throw (Error (lit "disk full"))
  /\ isServiceRunning
       (snd (start sample_rt (stopped_over_failing_write sample_config_text)))
     = true.
Proof. repeat split; vm_compute; reflexivity. Qed.

(** * Further facts and examples *)

(** ** The counter as [getSMSCount] returns it *)

Lemma getSMSCount_reads (st : State) :
  storage_works 1 st = true ->
  fst (getSMSCount st) = Normal (stored_count st).
Proof.
  intros Hw. unfold getSMSCount, try_catch, mbind, M_bind.
  rewrite getItem_run. unfold storage_works in Hw.
  destruct (faults st) as [|[e|] fs]; try discriminate; reflexivity.
Qed.

(** Nothing stored, or a store that fails to read: the count is zero. *)
Lemma getSMSCount_absent (st : State) :
  storage st !! lit "smsForwardedCount" = None \/ storage_works 1 st = false ->
  fst (getSMSCount st) = Normal (Num 0).
Proof.
  intros H. unfold getSMSCount, try_catch, mbind, M_bind.
  rewrite getItem_run. unfold storage_works in H.
  destruct (faults st) as [|[e|] fs]; cbn in *; try reflexivity;
    destruct H as [-> | H]; try discriminate; reflexivity.
Qed.

(** Beyond [2^53] the increment no longer counts: doubles are 2 apart. *)
Example add1_sticks_at_safe_bound :
  add1 (Num safe_bound) = Num safe_bound
  /\ round_double (safe_bound + 3) = (safe_bound + 4)%Z.
Proof. split; vm_compute; reflexivity. Qed.

Example parseInt_examples :
  parseInt (lit "  42abc") = Num 42
  /\ parseInt (lit "-0x1f") = Num (-31)
  /\ parseInt (lit "abc") = NaN
  /\ parseInt (lit "") = NaN
  /\ Number_toString (add1 (parseInt (lit "abc"))) = lit "NaN".
Proof. repeat split; vm_compute; reflexivity. Qed.

(** ** Error listeners *)

Lemma removeErrorListener_removes (listener : ErrorListener) (st : State) :
  forall l, l ∈ errorListeners (snd (removeErrorListener listener st)) ->
            listener_ref l <> listener_ref listener.
Proof.
  intros l Hin. cbn in Hin. apply list_elem_of_In, filter_In in Hin.
  destruct Hin as [_ Hne]. apply negb_true_iff, Nat.eqb_neq in Hne. exact Hne.
Qed.

(** A listener that throws does not keep the next ones from being called,
    nor [emitError] from completing. *)
Lemma emitError_listener_throws_contained (rt : Runtime) (ty : ErrorType)
    (msg : str) (st : State) :
  fst (emitError rt ty msg st) = Normal tt
  /\ delivery_log (new_effects st (snd (emitError rt ty msg st)))
     = fan_out {| type := ty; message := msg;
                  timestamp := Date_toISOString rt (clock st) |}
               (errorListeners st).
Proof.
  rewrite emitError_run. split; [reflexivity|]. cbn [snd].
  rewrite (new_effects_app st _
             (deliveries {| type := ty; message := msg;
                            timestamp := Date_toISOString rt (clock st) |}
                         (errorListeners st))) by reflexivity.
  apply delivery_log_deliveries.
Qed.

(** ** The scenario of the specification

    Stored configuration [sample_config_text], message [sample_sms]: after
    [start] the dispatcher runs with REST only; [forwardSMS] issues one POST
    to [https://example.test/sms] whose body carries the message and the
    sender, the answer is 200, no error event fires, and the counter goes
    from nothing to 1. *)
Example rest_only_scenario :
  config (snd (start sample_rt (stopped_over sample_config_text)))
  = Some rest_only_config
  /\ isServiceRunning (snd (start sample_rt (stopped_over sample_config_text)))
     = true
  /\ map (fun r => (req_url r, req_method r,
                    lookup_prop (match req_body r with JObj props => props | _ => [] end)
                                (lit "message"),
                    lookup_prop (match req_body r with JObj props => props | _ => [] end)
                                (lit "sender")))
       (network_calls
          (trace (snd (forwardSMS sample_rt sample_sms
                         (snd (start sample_rt (stopped_over sample_config_text)))))))
     = [ (lit "https://example.test/sms", lit "POST",
          Some (JStr (lit "hi")), Some (JStr (lit "+15551234567"))) ]
  /\ delivery_log
       (trace (snd (forwardSMS sample_rt sample_sms
                      (snd (start sample_rt (stopped_over sample_config_text))))))
     = []
  /\ stored_count (snd (start sample_rt (stopped_over sample_config_text)))
     = Num 0
  /\ stored_count
       (snd (forwardSMS sample_rt sample_sms
               (snd (start sample_rt (stopped_over sample_config_text)))))
     = Num 1.
Proof. repeat split; vm_compute; reflexivity. Qed.

(** ** How a running dispatcher comes to hold an invalid configuration

    The configuration is reloaded by [isConfigurationValid] (and by [start])
    whatever the running flag is; an edit of the stored configuration thus
    reaches a dispatcher that keeps running. *)
Example blank_config_reachable :
  fst (isConfigurationValid sample_rt (running_over blank_config_text))
  = Normal false
  /\ isServiceRunning
       (snd (isConfigurationValid sample_rt (running_over blank_config_text)))
     = true
  /\ config (snd (isConfigurationValid sample_rt (running_over blank_config_text)))
     = Some blank_config
  /\ map req_url
       (network_calls
          (trace (snd (forwardSMS sample_rt sample_sms
                         (snd (isConfigurationValid sample_rt
                                 (running_over blank_config_text)))))))
     = [ lit " "; lit "https://api.telegram.org/bot123:abc/sendMessage" ].
Proof. repeat split; vm_compute; reflexivity. Qed.

(** * Beyond the contract: the rest of the class *)

(** ** Error listeners *)

Lemma emitError_log (rt : Runtime) (ty : ErrorType) (msg : str) (st : State) :
  delivery_log (new_effects st (snd (emitError rt ty msg st)))
  = fan_out {| type := ty; message := msg;
               timestamp := Date_toISOString rt (clock st) |}
            (errorListeners st).
Proof.
  rewrite emitError_run. cbn [snd].
  rewrite (new_effects_app st _
             (deliveries {| type := ty; message := msg;
                            timestamp := Date_toISOString rt (clock st) |}
                         (errorListeners st))) by reflexivity.
  apply delivery_log_deliveries.
Qed.

(** Every registered listener is called with the event, in the order of
    registration, whatever the listeners do when called; [emitError]
    completes normally and touches neither the dispatcher nor the store. *)
Theorem emitError_notifies_all (rt : Runtime) (ty : ErrorType) (msg : str)
    (st : State) :
  exists st',
    emitError rt ty msg st = (Normal tt, st')
    /\ delivery_log (new_effects st st')
       = fan_out {| type := ty; message := msg;
                    timestamp := Date_toISOString rt (clock st) |}
                 (errorListeners st)
    /\ network_calls (new_effects st st') = []
    /\ same_frame st st'.
Proof.
  exists (emitted rt ty msg st). split; [apply emitError_run|].
  rewrite (new_effects_app st _
             (deliveries {| type := ty; message := msg;
                            timestamp := Date_toISOString rt (clock st) |}
                         (errorListeners st))) by reflexivity.
  split; [apply delivery_log_deliveries|].
  split; [apply network_calls_deliveries | apply emitted_frame].
Qed.

(** A listener added with [addErrorListener] is called for the next error,
    once more than before and after the listeners registered earlier. *)
Theorem addErrorListener_then_notified (rt : Runtime) (listener : ErrorListener)
    (ty : ErrorType) (msg : str) (st : State) :
  let st1 := snd (addErrorListener listener st) in
  let ev := {| type := ty; message := msg;
               timestamp := Date_toISOString rt (clock st) |} in
  fst (addErrorListener listener st) = Normal tt
  /\ delivery_log (new_effects st1 (snd (emitError rt ty msg st1)))
     = fan_out ev (errorListeners st) ++ [(listener_ref listener, ev)].
Proof.
  cbv zeta. split; [reflexivity|].
  rewrite emitError_log. cbn [snd addErrorListener modify
    errorListeners set_errorListeners clock].
  unfold fan_out. rewrite map_app. reflexivity.
Qed.

Lemma filter_other_refs (r : nat) (ls : list ErrorListener) :
  (forall l, l ∈ ls -> listener_ref l <> r) ->
  List.filter (fun l => negb (listener_ref l =? r)%nat) ls = ls.
Proof.
  induction ls as [|l ls IH]; intros H; [reflexivity|].
  cbn [List.filter].
  assert (Hl : (listener_ref l =? r)%nat = false).
  { apply Nat.eqb_neq. apply H. apply list_elem_of_here. }
  rewrite Hl. cbn [negb]. f_equal. apply IH.
  intros l' Hin. apply H. apply list_elem_of_further. exact Hin.
Qed.

(** After [removeErrorListener] the listener is not called any more, however
    often it had been added; the other listeners stay registered, in their
    order. *)
Theorem removeErrorListener_silences (rt : Runtime) (listener : ErrorListener)
    (ty : ErrorType) (msg : str) (st : State) :
  let st1 := snd (removeErrorListener listener st) in
  fst (removeErrorListener listener st) = Normal tt
  /\ (forall d,
        d ∈ delivery_log (new_effects st1 (snd (emitError rt ty msg st1))) ->
        fst d <> listener_ref listener)
  /\ errorListeners st1
     = List.filter (fun l => negb (listener_ref l =? listener_ref listener)%nat)
                   (errorListeners st)
  /\ (forall l, l ∈ errorListeners st ->
                listener_ref l <> listener_ref listener ->
                l ∈ errorListeners st1)
  /\ snd (removeErrorListener listener st1) = st1.
Proof.
  cbv zeta. split; [reflexivity|]. split; [|split; [reflexivity|split]].
  - intros d Hd.
    rewrite emitError_log in Hd.
    unfold fan_out in Hd. apply list_elem_of_fmap in Hd.
    destruct Hd as (l & -> & Hl). cbn [fst].
    exact (removeErrorListener_removes listener st l Hl).
  - intros l Hin Hne. cbn. apply list_elem_of_In, filter_In.
    split; [apply list_elem_of_In; exact Hin|].
    apply negb_true_iff, Nat.eqb_neq. exact Hne.
  - destruct st as [r c ls sto fs ck tr]. cbn.
    unfold set_errorListeners. cbn. f_equal.
    apply filter_other_refs. intros l Hin.
    apply list_elem_of_In, filter_In in Hin. destruct Hin as [_ Hne].
    apply negb_true_iff, Nat.eqb_neq in Hne. exact Hne.
Qed.

(** Adding a listener that is not registered and removing it again leaves
    the dispatcher as it was. *)
Theorem add_remove_listener_restores (listener : ErrorListener) (st : State) :
  (forall l, l ∈ errorListeners st -> listener_ref l <> listener_ref listener) ->
  snd (removeErrorListener listener (snd (addErrorListener listener st))) = st.
Proof.
  intros Hfresh.
  destruct st as [r c ls sto fs ck tr]. cbn in *.
  unfold set_errorListeners. cbn. f_equal.
  rewrite List.filter_app. cbn. rewrite Nat.eqb_refl. cbn.
  rewrite app_nil_r. apply filter_other_refs. exact Hfresh.
Qed.

Lemma add_remove_listener_restores_witness :
  snd (removeErrorListener throwing_listener
         (snd (addErrorListener throwing_listener stopped_over_nothing)))
  = stopped_over_nothing.
Proof.
  apply (add_remove_listener_restores throwing_listener stopped_over_nothing).
  intros l Hin. apply list_elem_of_singleton in Hin. subst l.
  cbn. discriminate.
Defined.

(** ** The counter *)

(** [getSMSCount] never throws: it returns the stored counter as
    [parseInt] reads it, zero when nothing (or the empty string) is stored
    and zero when the store fails to read; it changes nothing but uses up
    one store operation. *)
Theorem getSMSCount_total (st : State) :
  fst (getSMSCount st)
  = Normal (if storage_works 1 st then stored_count st else Num 0)
  /\ (storage st !! lit "smsForwardedCount" = None \/
      storage st !! lit "smsForwardedCount" = Some [] ->
      fst (getSMSCount st) = Normal (Num 0))
  /\ snd (getSMSCount st) = set_faults (tl (faults st)) st.
Proof.
  unfold getSMSCount, try_catch, mbind, M_bind, storage_works, stored_count.
  rewrite getItem_run.
  destruct (faults st) as [|[e|] fs]; cbn [take forallb fst snd andb tl];
    (split; [reflexivity|]; split; [|reflexivity]);
    intros [H | H]; try rewrite H; reflexivity.
Qed.

Lemma incrementSMSCount_other_keys (st : State) (key : str) :
  key <> lit "smsForwardedCount" ->
  storage (snd (incrementSMSCount st)) !! key = storage st !! key.
Proof.
  intros Hk. unfold incrementSMSCount, try_catch, mbind, M_bind.
  rewrite getItem_run.
  destruct (faults st) as [|[e|] fs] eqn:Ef; cbv beta iota.
  - rewrite setItem_run. cbn. apply lookup_insert_ne.
    intros Heq. apply Hk. symmetry. exact Heq.
  - reflexivity.
  - rewrite setItem_run. cbn [faults set_faults tl].
    destruct fs as [|[e'|] fs']; cbn; try reflexivity;
      apply lookup_insert_ne; intros Heq; apply Hk; symmetry; exact Heq.
Qed.

Lemma incrementSMSCount_no_faults (st : State) :
  faults st = [] -> faults (snd (incrementSMSCount st)) = [].
Proof.
  intros Hf. unfold incrementSMSCount, try_catch, mbind, M_bind.
  rewrite getItem_run, Hf. cbv beta iota. rewrite setItem_run. reflexivity.
Qed.

Lemma forwardSMS_no_faults (rt : Runtime) (sms : SMSMessage) (st : State) :
  faults st = [] -> faults (snd (forwardSMS rt sms st)) = [].
Proof.
  intros Hf.
  destruct (isRunning st) eqn:Hrun; [destruct (config st) as [c|] eqn:Hc|].
  - rewrite (forwardSMS_run rt sms c st Hrun Hc). cbn [snd].
    destruct (after_sends_frame rt sms c st) as (F1 & F2 & F3 & F4 & F5).
    apply incrementSMSCount_no_faults. congruence.
  - unfold forwardSMS. rewrite Hrun, Hc. exact Hf.
  - unfold forwardSMS. rewrite Hrun. exact Hf.
Qed.

(** [forwardSMS] never throws, never changes the running flag, the loaded
    configuration or the listeners, and writes to no key of the store but
    the counter: no failure of a send stops the dispatcher. *)
Theorem forwardSMS_frame (rt : Runtime) (sms : SMSMessage) (st : State) :
  exists st',
    forwardSMS rt sms st = (Normal tt, st')
    /\ isRunning st' = isRunning st
    /\ config st' = config st
    /\ errorListeners st' = errorListeners st
    /\ (forall key, key <> lit "smsForwardedCount" ->
                    storage st' !! key = storage st !! key)
    /\ (faults st = [] -> faults st' = []).
Proof.
  destruct (isRunning st) eqn:Hrun; [destruct (config st) as [c|] eqn:Hc|].
  - exists (snd (incrementSMSCount (after_sends rt sms c st))).
    split; [apply (forwardSMS_run rt sms c st Hrun Hc)|].
    destruct (after_sends_frame rt sms c st) as (F1 & F2 & F3 & F4 & F5).
    destruct (incrementSMSCount_frame (after_sends rt sms c st))
      as (I1 & I2 & I3 & _).
    cbv zeta in I1, I2, I3.
    split; [congruence|]. split; [congruence|]. split; [congruence|]. split.
    + intros key Hk. rewrite incrementSMSCount_other_keys by exact Hk.
      rewrite F4. reflexivity.
    + intros Hf. apply incrementSMSCount_no_faults. congruence.
  - exists st. unfold forwardSMS. rewrite Hrun, Hc. auto 10.
  - exists st. unfold forwardSMS. rewrite Hrun. auto 10.
Qed.

(** Once the stored counter is not a number, forwarding does not repair it:
    the increment stores the text ["NaN"], and the counter stays [NaN]. *)
Theorem forwardSMS_keeps_NaN (rt : Runtime) (sms : SMSMessage) (c : ConfigData)
    (st : State) :
  isRunning st = true -> config st = Some c ->
  storage_works 2 st = true ->
  stored_count st = NaN ->
  storage (snd (forwardSMS rt sms st)) !! lit "smsForwardedCount"
  = Some (lit "NaN")
  /\ stored_count (snd (forwardSMS rt sms st)) = NaN.
Proof.
  intros Hrun Hc Hw Hn.
  rewrite (forwardSMS_run rt sms c st Hrun Hc). cbn [snd].
  destruct (after_sends_frame rt sms c st) as (_ & _ & _ & F4 & F5).
  assert (Hw' : storage_works 2 (after_sends rt sms c st) = true).
  { unfold storage_works in *. rewrite F5. exact Hw. }
  unfold stored_count in *.
  rewrite (incrementSMSCount_works _ Hw'), F4, Hn, lookup_insert_eq.
  split; reflexivity.
Qed.

Lemma forwardSMS_keeps_NaN_witness :
  storage (snd (forwardSMS sample_rt sample_sms running_corrupt_count))
    !! lit "smsForwardedCount"
  = Some (lit "NaN")
  /\ stored_count (snd (forwardSMS sample_rt sample_sms running_corrupt_count))
     = NaN.
Proof.
  apply (forwardSMS_keeps_NaN sample_rt sample_sms off_config
           running_corrupt_count).
  - reflexivity.
  - reflexivity.
  - reflexivity.
  - vm_compute. reflexivity.
Defined.

(** ** The hook: messages one after the other *)

Lemma handleSMS_is_forwardSMS (rt : Runtime) (sms : SMSMessage) (st : State) :
  handleSMS rt sms st = forwardSMS rt sms st.
Proof.
  unfold handleSMS, isServiceRunning. destruct (isRunning st) eqn:Hrun.
  - reflexivity.
  - unfold forwardSMS. rewrite Hrun. reflexivity.
Qed.

(** While the dispatcher runs with a working store, every message handed to
    [handleSMS] counts once, whatever becomes of its sends: after [k]
    messages the counter is [k] higher (as long as it stays within [2^53]),
    and the dispatcher still runs with the same configuration. *)
Theorem handleSMS_all_counts (rt : Runtime) (messages : list SMSMessage) :
  forall (c : ConfigData) (st : State) (n : Z),
    isRunning st = true -> config st = Some c -> faults st = [] ->
    stored_count st = Num n ->
    (Z.abs n + Z.of_nat (length messages) <= safe_bound)%Z ->
    exists st',
      handleSMS_all rt messages st = (Normal tt, st')
      /\ stored_count st' = Num (n + Z.of_nat (length messages))
      /\ isRunning st' = true /\ config st' = Some c.
Proof.
  induction messages as [|sms rest IH]; intros c st n Hrun Hc Hf Hn Hb.
  - exists st. cbn. rewrite Z.add_0_r. auto.
  - cbn [handleSMS_all length] in *. unfold mbind, M_bind.
    rewrite handleSMS_is_forwardSMS.
    destruct (forwardSMS_effects rt sms c st Hrun Hc)
      as (st1 & Hrun1 & _ & _ & Hcount & Hr1 & Hc1 & _).
    assert (Hf1 : faults st1 = []).
    { pose proof (forwardSMS_no_faults rt sms st Hf) as Hx.
      rewrite Hrun1 in Hx. exact Hx. }
    rewrite Hrun1.
    assert (Hn1 : stored_count st1 = Num (n + 1)).
    { apply Hcount; [unfold storage_works; rewrite Hf; reflexivity | exact Hn | lia]. }
    destruct (IH c st1 (n + 1)%Z Hr1 Hc1 Hf1 Hn1 ltac:(lia))
      as (st' & Hall & Hcnt & Hr & Hcf).
    exists st'. split; [exact Hall|]. split; [|auto].
    rewrite Hcnt. f_equal. lia.
Qed.

Lemma handleSMS_all_counts_witness :
  exists st',
    handleSMS_all sample_rt
      [sample_sms; sample_sms_sent_earlier; sample_sms_received_later]
      (running_with both_config)
    = (Normal tt, st')
    /\ stored_count st' = Num (41 + Z.of_nat 3)
    /\ isRunning st' = true /\ config st' = Some both_config.
Proof.
  apply (handleSMS_all_counts sample_rt
           [sample_sms; sample_sms_sent_earlier; sample_sms_received_later]
           both_config (running_with both_config) 41).
  - reflexivity.
  - reflexivity.
  - reflexivity.
  - vm_compute. reflexivity.
  - vm_compute. discriminate.
Defined.

(** Messages that arrive while the dispatcher is stopped are dropped, not
    kept: handling them changes nothing, so a later [start] finds no trace
    of them and sends nothing. *)
Theorem handleSMS_all_stopped_drops (rt : Runtime)
    (messages : list SMSMessage) (st : State) :
  isRunning st = false ->
  handleSMS_all rt messages st = (Normal tt, st)
  /\ network_calls
       (new_effects st (snd (start rt (snd (handleSMS_all rt messages st)))))
     = [].
Proof.
  intros Hstop.
  assert (Hall : handleSMS_all rt messages st = (Normal tt, st)).
  { induction messages as [|sms rest IH]; [reflexivity|].
    cbn [handleSMS_all]. unfold mbind, M_bind.
    rewrite handleSMS_is_forwardSMS.
    unfold forwardSMS at 1. rewrite Hstop. exact IH. }
  split; [exact Hall|]. rewrite Hall. cbn [snd].
  destruct (loadConfig_frame rt st) as (_ & _ & _ & Ht & _).
  rewrite start_run.
  destruct (loadConfig rt st) as [[[]|e] st1]; cbn [snd] in Ht.
  - destruct (isConfigurationValidSync st1).
    + rewrite setItem_run. cbn [faults set_isRunning].
      destruct (faults st1) as [|[e|] fs]; cbn [snd];
        rewrite (new_effects_app st _ []); try reflexivity;
        cbn; rewrite Ht, app_nil_r; reflexivity.
    + cbn [snd]. rewrite (new_effects_app st _ []); [reflexivity|].
      rewrite Ht, app_nil_r. reflexivity.
  - cbn [snd]. rewrite (new_effects_app st _ []); [reflexivity|].
    rewrite Ht, app_nil_r. reflexivity.
Qed.

Lemma handleSMS_all_stopped_drops_witness :
  handleSMS_all sample_rt [sample_sms; sample_sms]
    (stopped_over sample_config_text)
  = (Normal tt, stopped_over sample_config_text).
Proof.
  apply (handleSMS_all_stopped_drops sample_rt [sample_sms; sample_sms]
           (stopped_over sample_config_text)).
  reflexivity.
Defined.

(** ** Loading, starting again *)

(** When the stored configuration cannot be loaded, the configuration
    loaded before stays in place: [isConfigurationValid] answers [false],
    and a running dispatcher goes on with the configuration it had. *)
Theorem failed_reload_keeps_config (rt : Runtime) (st : State) :
  failed (fst (loadConfig rt st)) = true ->
  exists st',
    isConfigurationValid rt st = (Normal false, st')
    /\ config st' = config st /\ isRunning st' = isRunning st
    /\ storage st' = storage st.
Proof.
  intros Hfail. rewrite isConfigurationValid_run.
  destruct (loadConfig_frame rt st) as (F1 & F2 & _ & _ & _ & F6).
  destruct (loadConfig rt st) as [[[]|e] st1]; [discriminate|].
  exists st1. cbn [fst snd] in *. auto.
Qed.

Lemma failed_reload_keeps_config_witness :
  exists st',
    isConfigurationValid sample_rt (running_over (lit "{bad"))
    = (Normal false, st')
    /\ config st' = config (running_over (lit "{bad"))
    /\ isRunning st' = isRunning (running_over (lit "{bad"))
    /\ storage st' = storage (running_over (lit "{bad")).
Proof.
  apply (failed_reload_keeps_config sample_rt (running_over (lit "{bad"))).
  vm_compute. reflexivity.
Defined.

(** With nothing stored under the configuration key (or the empty string),
    [loadConfig] loads the defaults, in which both destinations are off: the
    configuration is not valid, and [start] returns normally without
    starting and without writing to the store. *)
Theorem start_without_stored_config (rt : Runtime) (st : State) :
  storage_works 1 st = true ->
  (storage st !! lit "smsForwarderConfig" = None
   \/ storage st !! lit "smsForwarderConfig" = Some []) ->
  fst (isConfigurationValid rt st) = Normal false
  /\ start rt st
     = (Normal tt, set_config (Some default_config)
                     (set_faults (tl (faults st)) st)).
Proof.
  intros Hw Hs. rewrite isConfigurationValid_run, start_run, loadConfig_run.
  unfold storage_works in Hw.
  destruct (faults st) as [|[e|] fs]; try discriminate;
    destruct Hs as [-> | ->]; cbv zeta; split; reflexivity.
Qed.

Lemma start_without_stored_config_witness :
  fst (isConfigurationValid sample_rt stopped_over_nothing) = Normal false
  /\ start sample_rt stopped_over_nothing
     = (Normal tt, set_config (Some default_config)
                     (set_faults (tl (faults stopped_over_nothing))
                                 stopped_over_nothing)).
Proof.
  apply (start_without_stored_config sample_rt stopped_over_nothing).
  - reflexivity.
  - left. reflexivity.
Defined.

Lemma String_or_loaded (rt : Runtime) (v : option JSON) (s d : str) :
  loaded_string v s ->
  String_or rt v d = Normal (if is_empty s then d else s).
Proof.
  intros [-> | [-> ->]]; [|reflexivity].
  unfold String_or. cbn [ToBoolean]. destruct s; reflexivity.
Qed.

Lemma ToBoolean_loaded (v : option JSON) (b : bool) :
  loaded_flag v b -> ToBoolean v = b.
Proof. intros [-> | [-> ->]]; reflexivity. Qed.

(** A stored configuration object whose fields are strings and booleans (as
    the configuration screen writes them) is loaded field by field as it is;
    a missing field is loaded as the empty string or [false]; only the
    headers differ: missing or empty, they are loaded as the default
    headers. *)
Theorem parse_config_typed (rt : Runtime) (savedConfig : str)
    (props : list (str * JSON)) (c : ConfigData) :
  JSON_parse rt savedConfig = Normal (JObj props) ->
  loaded_flag (lookup_prop props (lit "restApiEnabled")) (restApiEnabled c) ->
  loaded_string (lookup_prop props (lit "restApiUrl")) (restApiUrl c) ->
  loaded_string (lookup_prop props (lit "restApiHeaders")) (restApiHeaders c) ->
  loaded_flag (lookup_prop props (lit "telegramEnabled")) (telegramEnabled c) ->
  loaded_string (lookup_prop props (lit "telegramBotToken")) (telegramBotToken c) ->
  loaded_string (lookup_prop props (lit "telegramChatId")) (telegramChatId c) ->
  parse_config rt savedConfig
  = Normal {| restApiEnabled := restApiEnabled c;
              restApiUrl := restApiUrl c;
              restApiHeaders :=
                if is_empty (restApiHeaders c) then default_headers
                else restApiHeaders c;
              telegramEnabled := telegramEnabled c;
              telegramBotToken := telegramBotToken c;
              telegramChatId := telegramChatId c |}.
Proof.
  intros Hp H1 H2 H3 H4 H5 H6.
  unfold parse_config, mbind, Completion_bind. rewrite Hp. cbn [Get].
  rewrite (String_or_loaded rt _ _ [] H2).
  rewrite (String_or_loaded rt _ _ default_headers H3).
  rewrite (String_or_loaded rt _ _ [] H5).
  rewrite (String_or_loaded rt _ _ [] H6).
  rewrite (ToBoolean_loaded _ _ H1), (ToBoolean_loaded _ _ H4).
  unfold mret, Completion_ret. do 2 f_equal;
    match goal with |- (if is_empty ?s then [] else ?s) = ?s =>
      destruct s; reflexivity end.
Qed.

Lemma parse_config_typed_witness :
  parse_config sample_rt sample_config_text = Normal rest_only_config.
Proof.
  apply (parse_config_typed sample_rt sample_config_text
           [ (lit "restApiEnabled", JBool true);
             (lit "restApiUrl", JStr (lit "https://example.test/sms"));
             (lit "telegramEnabled", JBool false) ]
           {| restApiEnabled := true;
              restApiUrl := lit "https://example.test/sms";
              restApiHeaders := [];
              telegramEnabled := false;
              telegramBotToken := [];
              telegramChatId := [] |}).
  - vm_compute. reflexivity.
  - left. reflexivity.
  - left. reflexivity.
  - right. split; reflexivity.
  - left. reflexivity.
  - right. split; reflexivity.
  - right. split; reflexivity.
Defined.

Lemma running_key_not_config_key :
  lit "smsForwarderRunning" <> lit "smsForwarderConfig".
Proof. vm_compute. discriminate. Qed.

(** With a working store, starting twice is starting once: the second
    [start] reloads the same configuration, ends the same way and leaves
    the same state. *)
Theorem start_idempotent (rt : Runtime) (st : State) :
  faults st = [] ->
  start rt (snd (start rt st)) = start rt st.
Proof.
  intros Hf.
  assert (Hstart : forall s, faults s = [] ->
    start rt s
    = match storage s !! lit "smsForwarderConfig" with
      | Some (c :: r) =>
          match parse_config rt (c :: r) with
          | Normal loaded =>
              if restApiValid loaded || telegramValid loaded
              then (Normal tt,
                    set_storage (<[lit "smsForwarderRunning" := lit "true"]> (storage s))
                      (set_faults [] (set_isRunning true
                         (set_config (Some loaded) (set_faults [] s)))))
              else (Normal tt, set_config (Some loaded) (set_faults [] s))
          | Throw e => (Throw e, set_faults [] s)
          end
      | _ => (Normal tt, set_config (Some default_config) (set_faults [] s))
      end).
  { intros s Hs. rewrite start_run, loadConfig_run, Hs. cbv zeta. cbn [tl].
    destruct (storage s !! lit "smsForwarderConfig") as [[|c r]|];
      try reflexivity.
    destruct (parse_config rt (c :: r)) as [loaded|e]; [|reflexivity].
    unfold isConfigurationValidSync. cbn [config set_config].
    destruct (restApiValid loaded || telegramValid loaded); [|reflexivity].
    rewrite setItem_run. reflexivity. }
  rewrite (Hstart st Hf).
  destruct st as [r c ls sto fs ck tr]. cbn [faults] in Hf. subst fs.
  cbn [storage].
  destruct (sto !! lit "smsForwarderConfig") as [[|x t]|] eqn:Es.
  - rewrite Hstart by reflexivity. cbn [storage set_config set_faults snd].
    rewrite Es. reflexivity.
  - destruct (parse_config rt (x :: t)) as [loaded|e] eqn:Ep.
    + destruct (restApiValid loaded || telegramValid loaded) eqn:Ev.
      * rewrite Hstart by reflexivity.
        cbn [storage set_storage set_config set_faults set_isRunning snd].
        rewrite (lookup_insert_ne sto _ _ _ running_key_not_config_key).
        rewrite Es, Ep, Ev.
        cbn [set_storage set_faults set_isRunning set_config isRunning config
             errorListeners storage faults clock trace].
        rewrite insert_insert_eq. reflexivity.
      * rewrite Hstart by reflexivity. cbn [storage set_config set_faults snd].
        rewrite Es, Ep, Ev. reflexivity.
    + rewrite Hstart by reflexivity. cbn [storage set_faults snd].
      rewrite Es, Ep. reflexivity.
  - rewrite Hstart by reflexivity. cbn [storage set_config set_faults snd].
    rewrite Es. reflexivity.
Qed.

Lemma start_idempotent_witness :
  start sample_rt (snd (start sample_rt (stopped_over sample_config_text)))
  = start sample_rt (stopped_over sample_config_text).
Proof.
  apply (start_idempotent sample_rt (stopped_over sample_config_text)).
  reflexivity.
Defined.

(** * Beyond the contract: the callers *)

Lemma start_valid_runs (rt : Runtime) (st : State) :
  fst (isConfigurationValid rt st) = Normal true ->
  storage_works 2 st = true ->
  exists st',
    start rt st = (Normal tt, st')
    /\ isRunning st' = true
    /\ storage st' = <[lit "smsForwarderRunning" := lit "true"]> (storage st)
    /\ faults st' = tl (tl (faults st)).
Proof.
  intros Hv Hw. rewrite isConfigurationValid_run in Hv. rewrite start_run.
  destruct (loadConfig_frame rt st) as (_ & F2 & _ & _ & F5 & _).
  destruct (loadConfig rt st) as [[[]|e] st1]; cbn [fst snd] in *;
    [|discriminate].
  injection Hv as Hv. rewrite Hv. rewrite setItem_run.
  cbn [faults set_isRunning]. rewrite F5.
  unfold storage_works in Hw.
  destruct (faults st) as [|[e|] [|[e'|] fs]]; try discriminate;
    cbn [tl]; eexists; (split; [reflexivity|]); cbn; rewrite F2; auto.
Qed.

Lemma start_invalid_returns (rt : Runtime) (st : State) :
  fst (isConfigurationValid rt st) = Normal false ->
  isRunning (snd (start rt st)) = isRunning st
  /\ storage (snd (start rt st)) = storage st.
Proof.
  intros Hv. rewrite isConfigurationValid_run in Hv. rewrite start_run.
  destruct (loadConfig_frame rt st) as (F1 & F2 & _).
  destruct (loadConfig rt st) as [[[]|e] st1]; cbn [fst snd] in *.
  - injection Hv as Hv. rewrite Hv. auto.
  - auto.
Qed.

(** ** The hook: coming back to the foreground *)

Lemma foreground_guard (current next : AppState.AppStateStatus) :
  match_inactive_or_background (AppState.tag current)
  && AppState.eqb next AppState.active = true
  <-> (current = AppState.inactive \/ current = AppState.background)
      /\ next = AppState.active.
Proof.
  destruct current, next; vm_compute; split;
    try (intros H; discriminate H);
    try (intros _; auto; fail);
    try (intros [[H | H] H']; discriminate).
Qed.

(** [handleAppStateChange] never throws and records the new state.  It
    calls [start] exactly when the application comes from [inactive] or
    [background] to [active]; then, with a valid stored configuration and a
    working store, the dispatcher runs afterwards and ["true"] is persisted,
    also when it had been stopped before.  On every other change the
    dispatcher and the store are left alone. *)
Theorem handleAppStateChange_outcome (rt : Runtime)
    (current next : AppState.AppStateStatus) (st : State) :
  exists st',
    handleAppStateChange rt next current st = (Normal tt, (next, st'))
    /\ ((current = AppState.inactive \/ current = AppState.background) ->
        next = AppState.active ->
        st' = snd (start rt st)
        /\ (fst (isConfigurationValid rt st) = Normal true ->
            storage_works 2 st = true ->
            isServiceRunning st' = true
            /\ storage st' !! lit "smsForwarderRunning" = Some (lit "true")))
    /\ (~ ((current = AppState.inactive \/ current = AppState.background)
           /\ next = AppState.active) ->
        st' = st).
Proof.
  unfold handleAppStateChange, mbind, UI_bind, getState, setState, await,
    try_catch.
  pose proof (foreground_guard current next) as Hg.
  destruct (match_inactive_or_background (AppState.tag current)
            && AppState.eqb next AppState.active).
  - destruct (start rt st) as [[[]|e] st1] eqn:Es;
      exists st1; (split; [reflexivity|]); split;
      try (intros Hn; exfalso; apply Hn; apply Hg; reflexivity);
      intros _ _; (split; [reflexivity|]); intros Hv Hw;
      destruct (start_valid_runs rt st Hv Hw) as (st2 & Hs & Hr & Hsto & _);
      rewrite Es in Hs; try discriminate Hs; injection Hs as <-;
      (split; [exact Hr | rewrite Hsto; apply lookup_insert_eq]).
  - exists st. split; [reflexivity|]. split.
    + intros Hc Hn. assert (Habs : false = true) by (apply Hg; auto).
      discriminate.
    + intros _. reflexivity.
Qed.

Lemma handleAppStateChange_outcome_witness :
  exists st',
    handleAppStateChange sample_rt AppState.active AppState.background
      (snd (stop (running_over sample_config_text)))
    = (Normal tt, (AppState.active, st'))
    /\ isServiceRunning (snd (stop (running_over sample_config_text))) = false
    /\ isServiceRunning st' = true
    /\ storage st' !! lit "smsForwarderRunning" = Some (lit "true").
Proof.
  destruct (handleAppStateChange_outcome sample_rt AppState.background
              AppState.active (snd (stop (running_over sample_config_text))))
    as (st' & Hrun & Hfg & _).
  exists st'. split; [exact Hrun|]. split; [reflexivity|].
  destruct (Hfg (or_intror eq_refl) eq_refl) as (_ & Hvalid).
  apply Hvalid.
  - vm_compute. reflexivity.
  - reflexivity.
Defined.

(** ** The home screen *)

Lemma isConfigurationValid_explicit (rt : Runtime) (st : State) :
  storage_works 1 st = true ->
  isConfigurationValid rt st
  = match storage st !! lit "smsForwarderConfig" with
    | Some (c :: r) =>
        match parse_config rt (c :: r) with
        | Normal loaded =>
            (Normal (restApiValid loaded || telegramValid loaded),
             set_config (Some loaded) (set_faults (tl (faults st)) st))
        | Throw _ => (Normal false, set_faults (tl (faults st)) st)
        end
    | _ => (Normal false,
            set_config (Some default_config) (set_faults (tl (faults st)) st))
    end.
Proof.
  intros Hw. rewrite isConfigurationValid_run, loadConfig_run.
  unfold storage_works in Hw.
  destruct (faults st) as [|[e|] fs]; try discriminate; cbv zeta;
    (destruct (storage st !! lit "smsForwarderConfig") as [[|c r]|];
     try reflexivity;
     destruct (parse_config rt (c :: r)); reflexivity).
Qed.

(** Asking again gives the same answer, the store working and unchanged. *)
Lemma isConfigurationValid_again (rt : Runtime) (st : State) :
  storage_works 2 st = true ->
  fst (isConfigurationValid rt (snd (isConfigurationValid rt st)))
  = fst (isConfigurationValid rt st).
Proof.
  intros Hw.
  assert (Hw1 : storage_works 1 st = true).
  { unfold storage_works in *. destruct (faults st) as [|[e|] fs];
      try discriminate; reflexivity. }
  assert (Hw2 : forall s, faults s = tl (faults st) -> storage_works 1 s = true).
  { intros s Hs. unfold storage_works in *. rewrite Hs.
    destruct (faults st) as [|[e|] [|[e'|] fs]]; try discriminate; reflexivity. }
  rewrite (isConfigurationValid_explicit rt st Hw1).
  destruct (storage st !! lit "smsForwarderConfig") as [[|c r]|] eqn:Es;
    try (rewrite isConfigurationValid_explicit by (apply Hw2; reflexivity);
         cbn [snd storage set_config set_faults]; rewrite Es; reflexivity).
  destruct (parse_config rt (c :: r)) as [loaded|e] eqn:Ep;
    rewrite isConfigurationValid_explicit by (apply Hw2; reflexivity);
    cbn [snd storage set_config set_faults]; rewrite Es, Ep; reflexivity.
Qed.

Lemma isConfigurationValid_frame (rt : Runtime) (st : State) :
  let st1 := snd (isConfigurationValid rt st) in
  isRunning st1 = isRunning st /\ storage st1 = storage st
  /\ faults st1 = tl (faults st).
Proof.
  cbv zeta. rewrite isConfigurationValid_run.
  destruct (loadConfig_frame rt st) as (F1 & F2 & _ & _ & F5 & _).
  destruct (loadConfig rt st) as [[[]|e] st1]; cbn [snd] in *; auto.
Qed.

Lemma toggleService_checked_start_run (rt : Runtime) (h : HomeState) (st : State) :
  home_isRunning h = false ->
  HomePageChecked.toggleService rt h st
  = match isConfigurationValid rt st with
    | (Normal true, st1) =>
        match start rt st1 with
        | (Normal _, st2) =>
            (Normal tt,
             ({| home_isRunning := true; home_smsCount := home_smsCount h;
                 home_isConfigValid := home_isConfigValid h;
                 home_alerts := home_alerts h |}, st2))
        | (Throw _, st2) => (Normal tt, (h, st2))
        end
    | (Normal false, st1) =>
        (Normal tt,
         ({| home_isRunning := false; home_smsCount := home_smsCount h;
             home_isConfigValid := home_isConfigValid h;
             home_alerts := home_alerts h
               ++ [(HomePageChecked.setup_required_title,
                    HomePageChecked.setup_required_message)] |}, st1))
    | (Throw _, st1) => (Normal tt, (h, st1))
    end.
Proof.
  intros Hoff.
  unfold HomePageChecked.toggleService, UI_try_catch, mbind, UI_bind,
    getState, await, Alert_alert, setIsRunning, setState, mret, UI_ret.
  destruct h as [r n v a]. cbn [home_isRunning] in Hoff. subst r.
  cbn [negb home_isRunning home_smsCount home_isConfigValid home_alerts].
  destruct (isConfigurationValid rt st) as [[[|]|e] st1]; cbn [negb].
  - destruct (start rt st1) as [[[]|e] st2]; reflexivity.
  - reflexivity.
  - reflexivity.
Qed.

(** The start button of the home screen that checks first
    ([HomePageChecked.toggleService], screen showing STOPPED).  It never
    throws.  When the stored configuration is not valid it shows the
    "Setup Required" alert and changes neither the screen's flag, nor the
    dispatcher's, nor the store.  When it is valid and the store works, the
    screen's flag, the dispatcher's flag and the persisted flag are all
    true afterwards, and no alert is shown. *)
Theorem toggleService_checked_start (rt : Runtime) (h : HomeState) (st : State) :
  home_isRunning h = false ->
  exists h' st',
    HomePageChecked.toggleService rt h st = (Normal tt, (h', st'))
    /\ (fst (isConfigurationValid rt st) = Normal false ->
        home_isRunning h' = false
        /\ home_alerts h'
           = home_alerts h ++ [(HomePageChecked.setup_required_title,
                                HomePageChecked.setup_required_message)]
        /\ isRunning st' = isRunning st /\ storage st' = storage st)
    /\ (fst (isConfigurationValid rt st) = Normal true ->
        storage_works 3 st = true ->
        home_isRunning h' = true /\ isServiceRunning st' = true
        /\ storage st' !! lit "smsForwarderRunning" = Some (lit "true")
        /\ home_alerts h' = home_alerts h).
Proof.
  intros Hoff. rewrite (toggleService_checked_start_run rt h st Hoff).
  destruct (isConfigurationValid_frame rt st) as (V1 & V2 & V3).
  pose proof (isConfigurationValid_again rt st) as Hagain.
  destruct (isConfigurationValid rt st) as [[[|]|e] st1] eqn:Ev;
    cbn [fst snd] in *.
  - assert (Hstart : storage_works 3 st = true ->
              exists st2, start rt st1 = (Normal tt, st2)
                /\ isRunning st2 = true
                /\ storage st2 = <[lit "smsForwarderRunning" := lit "true"]> (storage st)).
    { intros Hw.
      assert (Hw2 : storage_works 2 st = true).
      { unfold storage_works in *.
        destruct (faults st) as [|[e|] [|[e'|] fs]]; try discriminate;
          reflexivity. }
      assert (Hw1 : storage_works 2 st1 = true).
      { unfold storage_works in *. rewrite V3.
        destruct (faults st) as [|[e|] [|[e'|] [|[e''|] fs]]];
          try discriminate; reflexivity. }
      destruct (start_valid_runs rt st1 (Hagain Hw2) Hw1)
        as (s & Hs & Hr & Hsto & _).
      exists s. rewrite Hsto, V2. auto. }
    destruct (start rt st1) as [[[]|e] st2] eqn:Es.
    + do 2 eexists. split; [reflexivity|].
      split; [intros H; discriminate|]. intros _ Hw.
      destruct (Hstart Hw) as (s & Hs & Hr & Hsto).
      injection Hs as <-. cbn [home_isRunning home_alerts].
      split; [reflexivity|]. split; [exact Hr|].
      split; [rewrite Hsto; apply lookup_insert_eq | reflexivity].
    + do 2 eexists. split; [reflexivity|].
      split; [intros H; discriminate|]. intros _ Hw.
      destruct (Hstart Hw) as (s & Hs & _). discriminate.
  - do 2 eexists. split; [reflexivity|]. split.
    + intros _. cbn [home_isRunning home_alerts]. auto.
    + intros H. discriminate.
  - do 2 eexists. split; [reflexivity|]. split; intros H; discriminate.
Qed.

Lemma toggleService_checked_start_witness :
  exists h' st',
    HomePageChecked.toggleService sample_rt home_initial
      (stopped_over sample_config_text)
    = (Normal tt, (h', st'))
    /\ home_isRunning h' = true /\ isServiceRunning st' = true
    /\ storage st' !! lit "smsForwarderRunning" = Some (lit "true")
    /\ home_alerts h' = home_alerts home_initial.
Proof.
  destruct (toggleService_checked_start sample_rt home_initial
              (stopped_over sample_config_text) eq_refl)
    as (h' & st' & Hrun & _ & Hvalid).
  exists h', st'. split; [exact Hrun|]. apply Hvalid.
  - vm_compute. reflexivity.
  - reflexivity.
Defined.

Lemma toggleService_stop_cases (rt : Runtime) (h : HomeState) (st : State) :
  home_isRunning h = true ->
  HomePageChecked.toggleService rt h st
  = match stop st with
    | (Normal _, st') =>
        (Normal tt,
         ({| home_isRunning := false; home_smsCount := home_smsCount h;
             home_isConfigValid := home_isConfigValid h;
             home_alerts := home_alerts h |}, st'))
    | (Throw _, st') => (Normal tt, (h, st'))
    end
  /\ HomePage.toggleService rt h st
     = match stop st with
       | (Normal _, st') =>
           (Normal tt,
            ({| home_isRunning := false; home_smsCount := home_smsCount h;
                home_isConfigValid := home_isConfigValid h;
                home_alerts := home_alerts h |}, st'))
       | (Throw _, st') =>
           (Normal tt,
            ({| home_isRunning := true; home_smsCount := home_smsCount h;
                home_isConfigValid := home_isConfigValid h;
                home_alerts := home_alerts h
                  ++ [(lit "Error", lit "Failed to toggle service")] |}, st'))
       end.
Proof.
  intros Hon.
  unfold HomePageChecked.toggleService, HomePage.toggleService, UI_try_catch,
    mbind, UI_bind, getState, await, Alert_alert, setIsRunning, setState,
    mret, UI_ret.
  destruct h as [r n v a]. cbn [home_isRunning] in Hon. subst r.
  cbn [negb home_isRunning home_smsCount home_isConfigValid home_alerts].
  destruct (stop st) as [[[]|e] st']; split; reflexivity.
Qed.

(** The stop button of either home screen (screen showing RUNNING).  It
    never throws.  The dispatcher's flag is false afterwards in every case.
    When the write to the store succeeds the screen shows STOPPED and
    ["false"] is persisted.  When the write fails the screen's flag is left
    as it was: the screen goes on showing RUNNING over a stopped
    dispatcher; the checked screen says nothing, the other shows its
    "Error" alert. *)
Theorem toggleService_stop (rt : Runtime) (h : HomeState) (st : State) :
  home_isRunning h = true ->
  exists h1 h2 st',
    HomePageChecked.toggleService rt h st = (Normal tt, (h1, st'))
    /\ HomePage.toggleService rt h st = (Normal tt, (h2, st'))
    /\ isServiceRunning st' = false
    /\ (storage_works 1 st = true ->
        home_isRunning h1 = false /\ home_isRunning h2 = false
        /\ storage st' !! lit "smsForwarderRunning" = Some (lit "false"))
    /\ (storage_works 1 st = false ->
        h1 = h /\ home_isRunning h2 = true
        /\ home_alerts h2
           = home_alerts h ++ [(lit "Error", lit "Failed to toggle service")]
        /\ storage st' = storage st).
Proof.
  intros Hon. destruct (toggleService_stop_cases rt h st Hon) as [-> ->].
  rewrite stop_run. unfold storage_works.
  destruct (faults st) as [|[e|] fs]; cbn [take forallb andb];
    do 3 eexists; (split; [reflexivity|]); (split; [reflexivity|]);
    (split; [reflexivity|]); split; intros H; try discriminate.
  - split; [reflexivity|]. split; [reflexivity|]. apply lookup_insert_eq.
  - auto.
  - split; [reflexivity|]. split; [reflexivity|]. apply lookup_insert_eq.
Qed.

Lemma toggleService_stop_witness :
  exists h1 h2 st',
    HomePageChecked.toggleService sample_rt home_running running_failing_store
    = (Normal tt, (h1, st'))
    /\ HomePage.toggleService sample_rt home_running running_failing_store
       = (Normal tt, (h2, st'))
    /\ isServiceRunning st' = false
    /\ h1 = home_running /\ home_isRunning h2 = true.
Proof.
  destruct (toggleService_stop sample_rt home_running running_failing_store
              eq_refl)
    as (h1 & h2 & st' & H1 & H2 & Hs & _ & Hfail).
  exists h1, h2, st'. split; [exact H1|]. split; [exact H2|].
  split; [exact Hs|].
  destruct (Hfail eq_refl) as (Ha & Hb & _). auto.
Defined.

Lemma toggleService_unchecked_start_run (rt : Runtime) (h : HomeState)
    (st : State) :
  home_isRunning h = false ->
  HomePage.toggleService rt h st
  = match start rt st with
    | (Normal _, st') =>
        (Normal tt,
         ({| home_isRunning := true; home_smsCount := home_smsCount h;
             home_isConfigValid := home_isConfigValid h;
             home_alerts := home_alerts h |}, st'))
    | (Throw _, st') =>
        (Normal tt,
         ({| home_isRunning := false; home_smsCount := home_smsCount h;
             home_isConfigValid := home_isConfigValid h;
             home_alerts := home_alerts h
               ++ [(lit "Error", lit "Failed to toggle service")] |}, st'))
    end.
Proof.
  intros Hoff.
  unfold HomePage.toggleService, UI_try_catch, mbind, UI_bind, getState,
    await, Alert_alert, setIsRunning, setState, mret, UI_ret.
  destruct h as [r n v a]. cbn [home_isRunning] in Hoff. subst r.
  cbn [negb home_isRunning home_smsCount home_isConfigValid home_alerts].
  destruct (start rt st) as [[[]|e] st']; reflexivity.
Qed.

(** The start button of the home screen of [src/app/index.tsx], which does
    not check first (screen showing STOPPED).  It never throws.  When
    [start] throws (the stored configuration cannot be loaded, or the write
    fails) it shows its "Error" alert and leaves the screen's flag false.
    When [start] returns normally the screen's flag becomes true: with a
    stored configuration that is loaded but not valid, the screen shows
    RUNNING while the dispatcher's flag is what it was before. *)
Theorem toggleService_unchecked_start (rt : Runtime) (h : HomeState)
    (st : State) :
  home_isRunning h = false ->
  exists h' st',
    HomePage.toggleService rt h st = (Normal tt, (h', st'))
    /\ st' = snd (start rt st)
    /\ (failed (fst (start rt st)) = true ->
        home_isRunning h' = false
        /\ home_alerts h'
           = home_alerts h ++ [(lit "Error", lit "Failed to toggle service")])
    /\ (failed (fst (start rt st)) = false ->
        home_isRunning h' = true /\ home_alerts h' = home_alerts h)
    /\ (failed (fst (loadConfig rt st)) = false ->
        fst (isConfigurationValid rt st) = Normal false ->
        home_isRunning h' = true /\ isServiceRunning st' = isRunning st).
Proof.
  intros Hoff. rewrite (toggleService_unchecked_start_run rt h st Hoff).
  pose proof (start_run rt st) as Hs.
  pose proof (isConfigurationValid_run rt st) as Hv.
  destruct (loadConfig_frame rt st) as (F1 & _).
  destruct (start rt st) as [[[]|e] st1] eqn:Es; cbn [fst snd failed];
    do 2 eexists; (split; [reflexivity|]); (split; [reflexivity|]).
  - split; [intros H; discriminate|]. split; [intros _; split; reflexivity|].
    intros Hl Hval. rewrite Hv in Hval.
    destruct (loadConfig rt st) as [[[]|e'] s]; [|discriminate].
    cbn [fst snd] in *. injection Hval as Hval. rewrite Hval in Hs.
    injection Hs as <-. split; [reflexivity | exact F1].
  - split; [intros _; split; reflexivity|]. split; [intros H; discriminate|].
    intros Hl Hval. rewrite Hv in Hval.
    destruct (loadConfig rt st) as [[[]|e'] s]; [|discriminate].
    cbn [fst snd] in *. injection Hval as Hval. rewrite Hval in Hs.
    discriminate.
Qed.

Lemma toggleService_unchecked_start_witness :
  exists h' st',
    HomePage.toggleService sample_rt home_initial stopped_over_nothing
    = (Normal tt, (h', st'))
    /\ home_isRunning h' = true /\ isServiceRunning st' = false.
Proof.
  destruct (toggleService_unchecked_start sample_rt home_initial
              stopped_over_nothing eq_refl)
    as (h' & st' & Hrun & _ & _ & _ & Hinvalid).
  exists h', st'. split; [exact Hrun|].
  apply Hinvalid; vm_compute; reflexivity.
Defined.








Lemma checkConfigurationValidity_run (rt : Runtime) (h : HomeState)
    (st : State) :
  HomePageChecked.checkConfigurationValidity rt h st
  = match isConfigurationValid rt st with
    | (Normal isValid, st1) =>
        (Normal tt,
         ({| home_isRunning := home_isRunning h;
             home_smsCount := home_smsCount h;
             home_isConfigValid := isValid;
             home_alerts := home_alerts h |}, st1))
    | (Throw _, st1) =>
        (Normal tt,
         ({| home_isRunning := home_isRunning h;
             home_smsCount := home_smsCount h;
             home_isConfigValid := false;
             home_alerts := home_alerts h |}, st1))
    end.
Proof.
  unfold HomePageChecked.checkConfigurationValidity, UI_try_catch, mbind,
    UI_bind, await, setIsConfigValid, setState.
  destruct (isConfigurationValid rt st) as [[b|e] st1]; reflexivity.
Qed.

Lemma loadStatus_checked_run (rt : Runtime) (h : HomeState) (st : State) :
  HomePageChecked.loadStatus rt h st
  = match faults st with
    | Some _ :: fs => (Normal tt, (h, set_faults fs st))
    | _ =>
        match tl (faults st) with
        | Some _ :: fs => (Normal tt, (h, set_faults fs st))
        | _ =>
            HomePageChecked.checkConfigurationValidity rt
              {| home_isRunning :=
                   is_true_text (storage st !! lit "smsForwarderRunning");
                 home_smsCount := stored_count st;
                 home_isConfigValid := home_isConfigValid h;
                 home_alerts := home_alerts h |}
              (set_faults (tl (tl (faults st))) st)
        end
    end.
Proof.
  unfold HomePageChecked.loadStatus, UI_try_catch, mbind, UI_bind, await,
    setIsRunning, setSmsCount, setState, stored_count.
  rewrite getItem_run.
  destruct (faults st) as [|[e|] fs] eqn:Ef; cbv beta iota.
  - rewrite getItem_run. cbn [faults set_faults tl storage].
    rewrite !checkConfigurationValidity_run.
    destruct (isConfigurationValid rt _) as [[b|e] st1]; reflexivity.
  - reflexivity.
  - rewrite getItem_run. cbn [faults set_faults tl storage].
    destruct fs as [|[e'|] fs']; try reflexivity;
      rewrite !checkConfigurationValidity_run;
      destruct (isConfigurationValid rt _) as [[b|e] st1]; reflexivity.
Qed.

(** [loadStatus] of the home screen that checks the configuration never
    throws and leaves the dispatcher's flag and the store alone.  With a
    working store the screen shows the stored flag, the stored counter and
    whether the stored configuration is valid, as [isConfigurationValid]
    answers it.  When one of its two reads fails, the check of the
    configuration is skipped with the rest: the screen and the loaded
    configuration stay as they were. *)
Theorem loadStatus_checked_outcome (rt : Runtime) (h : HomeState) (st : State) :
  exists h' st',
    HomePageChecked.loadStatus rt h st = (Normal tt, (h', st'))
    /\ isRunning st' = isRunning st /\ storage st' = storage st
    /\ home_alerts h' = home_alerts h
    /\ (storage_works 3 st = true ->
        home_isRunning h'
        = is_true_text (storage st !! lit "smsForwarderRunning")
        /\ home_smsCount h' = stored_count st
        /\ Normal (home_isConfigValid h') = fst (isConfigurationValid rt st))
    /\ (storage_works 2 st = false -> h' = h /\ config st' = config st).
Proof.
  rewrite loadStatus_checked_run. unfold storage_works.
  assert (Hcheck : forall h0 s0,
    exists h1 s1,
      HomePageChecked.checkConfigurationValidity rt h0 s0 = (Normal tt, (h1, s1))
      /\ isRunning s1 = isRunning s0 /\ storage s1 = storage s0
      /\ home_alerts h1 = home_alerts h0
      /\ home_isRunning h1 = home_isRunning h0
      /\ home_smsCount h1 = home_smsCount h0
      /\ (storage_works 1 s0 = true ->
          Normal (home_isConfigValid h1) = fst (isConfigurationValid rt s0))).
  { intros h0 s0. rewrite checkConfigurationValidity_run.
    destruct (isConfigurationValid_frame rt s0) as (F1 & F2 & _).
    cbv zeta in F1, F2.
    destruct (isConfigurationValid rt s0) as [[b|e] s1] eqn:Ev;
      cbn [snd fst] in *; do 2 eexists; (split; [reflexivity|]);
      cbn [home_isRunning home_smsCount home_isConfigValid home_alerts];
      repeat (split; [first [assumption | reflexivity]|]).
    - reflexivity.
    - intros Hw. rewrite (isConfigurationValid_explicit rt s0 Hw) in Ev.
      destruct (storage s0 !! lit "smsForwarderConfig") as [[|c r]|];
        try discriminate.
      destruct (parse_config rt (c :: r)); discriminate. }
  assert (Hsame : forall s0,
    storage s0 = storage st -> storage_works 1 s0 = true ->
    storage_works 1 st = true ->
    fst (isConfigurationValid rt s0) = fst (isConfigurationValid rt st)).
  { intros s0 Hs H0 H1.
    rewrite (isConfigurationValid_explicit rt s0 H0),
            (isConfigurationValid_explicit rt st H1), Hs.
    destruct (storage st !! lit "smsForwarderConfig") as [[|c r]|];
      try reflexivity.
    destruct (parse_config rt (c :: r)); reflexivity. }
  unfold storage_works in Hsame.
  destruct (faults st) as [|[e|] [|[e'|] fs]] eqn:Ef;
    cbn [tl take forallb andb] in *;
    try (do 2 eexists; (split; [reflexivity|]); (split; [reflexivity|]);
         (split; [reflexivity|]); (split; [reflexivity|]);
         split; [discriminate | intros _; split; reflexivity]).
  - destruct (Hcheck {| home_isRunning :=
                          is_true_text (storage st !! lit "smsForwarderRunning");
                        home_smsCount := stored_count st;
                        home_isConfigValid := home_isConfigValid h;
                        home_alerts := home_alerts h |} (set_faults [] st))
      as (h1 & s1 & Hrun & G1 & G2 & G3 & G4 & G5 & G6).
    exists h1, s1. split; [exact Hrun|]. split; [exact G1|]. split; [exact G2|].
    split; [exact G3|]. split; [|discriminate].
    intros _. split; [exact G4|]. split; [exact G5|].
    rewrite G6 by reflexivity. apply Hsame; reflexivity.
  - destruct (Hcheck {| home_isRunning :=
                          is_true_text (storage st !! lit "smsForwarderRunning");
                        home_smsCount := stored_count st;
                        home_isConfigValid := home_isConfigValid h;
                        home_alerts := home_alerts h |} (set_faults [] st))
      as (h1 & s1 & Hrun & G1 & G2 & G3 & G4 & G5 & G6).
    exists h1, s1. split; [exact Hrun|]. split; [exact G1|]. split; [exact G2|].
    split; [exact G3|]. split; [|discriminate].
    intros _. split; [exact G4|]. split; [exact G5|].
    rewrite G6 by reflexivity. apply Hsame; reflexivity.
  - destruct (Hcheck {| home_isRunning :=
                          is_true_text (storage st !! lit "smsForwarderRunning");
                        home_smsCount := stored_count st;
                        home_isConfigValid := home_isConfigValid h;
                        home_alerts := home_alerts h |} (set_faults fs st))
      as (h1 & s1 & Hrun & G1 & G2 & G3 & G4 & G5 & G6).
    exists h1, s1. split; [exact Hrun|]. split; [exact G1|]. split; [exact G2|].
    split; [exact G3|]. split; [|discriminate].
    intros Hw. split; [exact G4|]. split; [exact G5|].
    rewrite G6.
    + apply Hsame; [reflexivity| |reflexivity].
      cbn [faults set_faults]. destruct fs as [|[e1|] fs']; try discriminate;
        reflexivity.
    + unfold storage_works. cbn [faults set_faults].
      destruct fs as [|[e1|] fs']; try discriminate; reflexivity.
Qed.

(** ** The configuration screen *)

Lemma autoSaveConfig_run (JSON_stringify : JSON -> str) (c : ConfigData)
    (st : State) :
  autoSaveConfig JSON_stringify c st
  = match faults st with
    | Some _ :: fs => (Normal tt, set_faults fs st)
    | _ =>
        (Normal tt,
         set_storage (<[lit "smsForwarderConfig" :=
                          JSON_stringify (config_json c)]> (storage st))
                     (set_faults (tl (faults st)) st))
    end.
Proof.
  unfold autoSaveConfig, try_catch. rewrite setItem_run.
  destruct (faults st) as [|[e|] fs]; reflexivity.
Qed.

(** What the configuration screen saves, the dispatcher loads.
    [autoSaveConfig] never throws.  When the runtime's parser reads the
    saved text back as the object that was printed, a following
    [loadConfig] over a working store succeeds and holds the saved
    configuration field by field, except that empty headers come back as
    the default headers.  When the write fails, the store keeps what it
    held. *)
Theorem autoSaveConfig_then_loadConfig (rt : Runtime)
    (JSON_stringify : JSON -> str) (c : ConfigData) (st : State) :
  JSON_stringify (config_json c) <> [] ->
  JSON_parse rt (JSON_stringify (config_json c)) = Normal (config_json c) ->
  let saved := autoSaveConfig JSON_stringify c st in
  fst saved = Normal tt
  /\ isRunning (snd saved) = isRunning st
  /\ config (snd saved) = config st
  /\ (storage_works 1 st = false -> storage (snd saved) = storage st)
  /\ (storage_works 2 st = true ->
      fst (loadConfig rt (snd saved)) = Normal tt
      /\ config (snd (loadConfig rt (snd saved)))
         = Some {| restApiEnabled := restApiEnabled c;
                   restApiUrl := restApiUrl c;
                   restApiHeaders :=
                     if is_empty (restApiHeaders c) then default_headers
                     else restApiHeaders c;
                   telegramEnabled := telegramEnabled c;
                   telegramBotToken := telegramBotToken c;
                   telegramChatId := telegramChatId c |}).
Proof.
  intros Hne Hparse saved. subst saved. rewrite autoSaveConfig_run.
  unfold storage_works.
  assert (Hp : parse_config rt (JSON_stringify (config_json c))
    = Normal {| restApiEnabled := restApiEnabled c;
                restApiUrl := restApiUrl c;
                restApiHeaders :=
                  if is_empty (restApiHeaders c) then default_headers
                  else restApiHeaders c;
                telegramEnabled := telegramEnabled c;
                telegramBotToken := telegramBotToken c;
                telegramChatId := telegramChatId c |}).
  { unfold parse_config, mbind, Completion_bind. rewrite Hparse.
    unfold config_json. cbn [Get].
    rewrite (String_or_loaded rt _ (restApiUrl c) []);
      [|left; vm_compute; reflexivity].
    rewrite (String_or_loaded rt _ (restApiHeaders c) default_headers);
      [|left; vm_compute; reflexivity].
    rewrite (String_or_loaded rt _ (telegramBotToken c) []);
      [|left; vm_compute; reflexivity].
    rewrite (String_or_loaded rt _ (telegramChatId c) []);
      [|left; vm_compute; reflexivity].
    rewrite (ToBoolean_loaded _ (restApiEnabled c));
      [|left; vm_compute; reflexivity].
    rewrite (ToBoolean_loaded _ (telegramEnabled c));
      [|left; vm_compute; reflexivity].
    unfold mret, Completion_ret. do 2 f_equal;
      match goal with |- (if is_empty ?s then [] else ?s) = ?s =>
        destruct s; reflexivity end. }
  assert (Hload : forall s,
    match faults s with Some _ :: _ => False | _ => True end ->
    storage s !! lit "smsForwarderConfig"
    = Some (JSON_stringify (config_json c)) ->
    fst (loadConfig rt s) = Normal tt
    /\ config (snd (loadConfig rt s))
       = Some {| restApiEnabled := restApiEnabled c;
                 restApiUrl := restApiUrl c;
                 restApiHeaders :=
                   if is_empty (restApiHeaders c) then default_headers
                   else restApiHeaders c;
                 telegramEnabled := telegramEnabled c;
                 telegramBotToken := telegramBotToken c;
                 telegramChatId := telegramChatId c |}).
  { intros s Hs Hlook. rewrite loadConfig_run, Hlook.
    destruct (JSON_stringify (config_json c)) as [|u r] eqn:Et;
      [contradiction Hne; reflexivity|].
    rewrite Hp.
    destruct (faults s) as [|[e|] fs]; [|contradiction|]; split; reflexivity. }
  destruct (faults st) as [|[e|] fs] eqn:Ef; cbn [fst snd take forallb andb].
  - repeat split; try discriminate;
      apply Hload; cbn [faults storage set_storage set_faults tl];
      try exact I; apply lookup_insert_eq.
  - repeat split; discriminate.
  - split; [reflexivity|]. split; [reflexivity|]. split; [reflexivity|].
    split; [discriminate|]. intros Hw.
    apply Hload; cbn [faults storage set_storage set_faults tl].
    + destruct fs as [|[e|] fs']; [exact I|discriminate|exact I].
    + apply lookup_insert_eq.
Qed.

Lemma autoSaveConfig_then_loadConfig_witness :
  config (snd (loadConfig sample_rt_saved
                 (snd (autoSaveConfig sample_stringify rest_only_config
                         stopped_over_nothing))))
  = Some rest_only_config.
Proof.
  destruct (autoSaveConfig_then_loadConfig sample_rt_saved sample_stringify
              rest_only_config stopped_over_nothing) as (_ & _ & _ & _ & H).
  - vm_compute. discriminate.
  - vm_compute. reflexivity.
  - destruct (H eq_refl) as [_ Hc]. rewrite Hc. reflexivity.
Defined.

(** ** The dark mode provider *)

Lemma loadDarkModeSetting_run (systemColorScheme : option ColorScheme)
    (isDarkMode : bool) (st : State) :
  loadDarkModeSetting systemColorScheme isDarkMode st
  = (Normal tt,
     (match faults st with
      | Some _ :: _ => is_dark systemColorScheme
      | _ =>
          match storage st !! lit "darkMode" with
          | None => is_dark systemColorScheme
          | Some saved => str_eqb saved (lit "true")
          end
      end,
      set_faults (tl (faults st)) st)).
Proof.
  unfold loadDarkModeSetting, UI_try_catch, mbind, UI_bind, await, setState.
  rewrite getItem_run.
  destruct (faults st) as [|[e|] fs]; cbv beta iota;
    try reflexivity;
    destruct (storage st !! lit "darkMode"); reflexivity.
Qed.

Lemma toggleDarkMode_run (isDarkMode : bool) (st : State) :
  toggleDarkMode isDarkMode st
  = (Normal tt,
     (negb isDarkMode,
      match faults st with
      | Some _ :: fs => set_faults fs st
      | _ =>
          set_storage (<[lit "darkMode" := Boolean_toString (negb isDarkMode)]>
                         (storage st))
                      (set_faults (tl (faults st)) st)
      end)).
Proof.
  unfold toggleDarkMode, UI_try_catch, mbind, UI_bind, await, setState,
    getState. cbv beta iota zeta. rewrite setItem_run.
  destruct (faults st) as [|[e|] fs]; reflexivity.
Qed.

Lemma Boolean_toString_true (b : bool) :
  str_eqb (Boolean_toString b) (lit "true") = b.
Proof. destruct b; vm_compute; reflexivity. Qed.

(** [loadDarkModeSetting] never throws and writes nothing.  It follows the
    system colour scheme when nothing is saved or the read fails, whatever
    the flag was before; a saved text decides alone, and only the text
    ["true"] means dark. *)
Theorem loadDarkModeSetting_outcome (systemColorScheme : option ColorScheme)
    (isDarkMode : bool) (st : State) :
  exists isDarkMode' st',
    loadDarkModeSetting systemColorScheme isDarkMode st
    = (Normal tt, (isDarkMode', st'))
    /\ storage st' = storage st
    /\ (storage_works 1 st = false -> isDarkMode' = is_dark systemColorScheme)
    /\ (storage_works 1 st = true ->
        storage st !! lit "darkMode" = None ->
        isDarkMode' = is_dark systemColorScheme)
    /\ (forall saved,
          storage_works 1 st = true ->
          storage st !! lit "darkMode" = Some saved ->
          isDarkMode' = str_eqb saved (lit "true")).
Proof.
  rewrite loadDarkModeSetting_run. unfold storage_works.
  do 2 eexists. split; [reflexivity|]. split; [reflexivity|].
  destruct (faults st) as [|[e|] fs]; cbn [take forallb andb];
    (split; [intros H; try discriminate; reflexivity|]);
    (split; [intros H; try discriminate; intros ->; reflexivity|]);
    intros saved H; try discriminate; intros ->; reflexivity.
Qed.

(** [toggleDarkMode] never throws and always flips the flag on screen, also
    when the write fails.  When the write succeeds, the next
    [loadDarkModeSetting] over a working store shows the flipped flag
    whatever the system colour scheme and whatever flag the screen then
    holds, and a second toggle brings the flag and the saved text back to
    the first flag.  When the write fails, the store keeps what it held. *)
Theorem toggleDarkMode_outcome (isDarkMode : bool) (st : State) :
  exists st',
    toggleDarkMode isDarkMode st = (Normal tt, (negb isDarkMode, st'))
    /\ isRunning st' = isRunning st /\ config st' = config st
    /\ (forall key, key <> lit "darkMode" ->
                    storage st' !! key = storage st !! key)
    /\ (storage_works 1 st = false -> storage st' = storage st)
    /\ (storage_works 1 st = true ->
        storage st' !! lit "darkMode" = Some (Boolean_toString (negb isDarkMode)))
    /\ (forall systemColorScheme shown,
          storage_works 2 st = true ->
          fst (snd (loadDarkModeSetting systemColorScheme shown st'))
          = negb isDarkMode)
    /\ (storage_works 2 st = true ->
        exists st'',
          toggleDarkMode (negb isDarkMode) st' = (Normal tt, (isDarkMode, st''))
          /\ storage st'' !! lit "darkMode" = Some (Boolean_toString isDarkMode)).
Proof.
  rewrite toggleDarkMode_run. unfold storage_works.
  eexists. split; [reflexivity|].
  destruct (faults st) as [|[e|] fs] eqn:Ef; cbn [take forallb andb].
  - split; [reflexivity|]. split; [reflexivity|]. split.
    { intros key Hk. cbn [storage set_storage]. apply lookup_insert_ne.
      intros Heq. apply Hk. symmetry. exact Heq. }
    split; [discriminate|]. split.
    { intros _. apply lookup_insert_eq. }
    split.
    { intros scheme shown _. rewrite loadDarkModeSetting_run.
      cbn [fst snd faults storage set_storage set_faults tl].
      rewrite lookup_insert_eq. apply Boolean_toString_true. }
    intros _. rewrite toggleDarkMode_run.
    cbn [faults storage set_storage set_faults tl].
    rewrite negb_involutive. eexists. split; [reflexivity|].
    apply lookup_insert_eq.
  - split; [reflexivity|]. split; [reflexivity|].
    split; [reflexivity|]. split; [reflexivity|].
    split; [discriminate|]. split; [discriminate|]. discriminate.
  - split; [reflexivity|]. split; [reflexivity|]. split.
    { intros key Hk. cbn [storage set_storage]. apply lookup_insert_ne.
      intros Heq. apply Hk. symmetry. exact Heq. }
    split; [discriminate|]. split.
    { intros _. apply lookup_insert_eq. }
    split.
    { intros scheme shown Hw. rewrite loadDarkModeSetting_run.
      cbn [fst snd faults storage set_storage set_faults tl].
      destruct fs as [|[e1|] fs']; try discriminate;
        rewrite lookup_insert_eq; apply Boolean_toString_true. }
    intros Hw. rewrite toggleDarkMode_run.
    cbn [faults storage set_storage set_faults tl].
    rewrite negb_involutive.
    destruct fs as [|[e1|] fs']; try discriminate;
      (eexists; split; [reflexivity|]; apply lookup_insert_eq).
Qed.

(** ** The mock message source *)

Lemma Mock_call_single_timer (m : MockSMSListener) (c : MockCall) :
  active_intervals m
  = match intervalId m with Some id => [id] | None => [] end ->
  active_intervals (Mock_call m c)
  = match intervalId (Mock_call m c) with Some id => [id] | None => [] end.
Proof.
  intros Hinv. destruct c; cbn [Mock_call].
  - unfold Mock_start. destruct (intervalId m) eqn:Ei.
    + rewrite Ei. exact Hinv.
    + cbn [active_intervals intervalId]. rewrite Hinv. reflexivity.
  - unfold Mock_stop. destruct (intervalId m) as [id|] eqn:Ei.
    + cbn [active_intervals intervalId]. rewrite Hinv.
      cbn [List.filter]. rewrite Pos.eqb_refl. reflexivity.
    + rewrite Ei. exact Hinv.
  - exact Hinv.
  - exact Hinv.
Qed.

(** The mock source never has more than one timer set.  Whatever calls are
    made on a new [MockSMSListener], in whatever order, the timers set in
    the runtime are exactly the one it remembers, if it remembers one: a
    second [start] sets no second timer, and [stop] leaves no timer behind.
    The cleanup of [useSMSListener] therefore stops the shared source even
    while listeners of other components remain. *)
Theorem Mock_single_timer (calls : list MockCall) :
  let m := fold_left Mock_call calls Mock_new in
  active_intervals m
  = match intervalId m with Some id => [id] | None => [] end
  /\ Mock_start (Mock_start m) = Mock_start m
  /\ active_intervals (Mock_stop m) = []
  /\ Mock_stop (Mock_stop m) = Mock_stop m
  /\ (forall handleSMS other,
        other <> handleSMS -> In other (mock_listeners m) ->
        let m' := useSMSListener_cleanup handleSMS m in
        In other (mock_listeners m') /\ intervalId m' = None
        /\ active_intervals m' = []).
Proof.
  intros m.
  assert (Hinv : active_intervals m
    = match intervalId m with Some id => [id] | None => [] end).
  { subst m. generalize Mock_new, (eq_refl : active_intervals Mock_new
      = match intervalId Mock_new with Some id => [id] | None => [] end).
    induction calls as [|c calls IH]; intros m0 H0; [exact H0|].
    cbn [fold_left]. apply IH, Mock_call_single_timer, H0. }
  assert (Hstop : forall m1,
    active_intervals m1
    = match intervalId m1 with Some id => [id] | None => [] end ->
    intervalId (Mock_stop m1) = None /\ active_intervals (Mock_stop m1) = []).
  { intros m1 H1. unfold Mock_stop. destruct (intervalId m1) as [id|] eqn:Ei.
    - cbn [active_intervals intervalId]. rewrite H1. cbn [List.filter].
      rewrite Pos.eqb_refl. split; reflexivity.
    - rewrite Ei. split; [reflexivity|exact H1]. }
  split; [exact Hinv|]. split.
  { unfold Mock_start at 2 3. destruct (intervalId m) eqn:Ei.
    - unfold Mock_start. rewrite Ei. reflexivity.
    - reflexivity. }
  split; [apply Hstop, Hinv|]. split.
  { unfold Mock_stop at 2 3. destruct (intervalId m) eqn:Ei.
    - reflexivity.
    - unfold Mock_stop. rewrite Ei. reflexivity. }
  intros handleSMS other Hne Hin m'. subst m'. unfold useSMSListener_cleanup.
  destruct (Hstop (Mock_removeListener handleSMS m) Hinv) as [Hi Ha].
  split; [|split; assumption].
  assert (Hl : mock_listeners (Mock_stop (Mock_removeListener handleSMS m))
               = mock_listeners (Mock_removeListener handleSMS m)).
  { unfold Mock_stop. destruct (intervalId _); reflexivity. }
  rewrite Hl. cbn [mock_listeners Mock_removeListener].
  apply filter_In. split; [exact Hin|].
  apply negb_true_iff, Nat.eqb_neq. exact Hne.
Qed.
